(** * Project Agent: action handlers for Jira and GitHub (src/index.js)

    A shallow embedding of the handlers [getIssue], [fetchLinkedPRs],
    [getSprint], [getGitHubToken], [github], [getPRStatus], [fetchChecks]
    and [searchPRs], and the properties of their aggregation logic.

    Conventions of the embedding.
    - An [async] function is a function into [Result]: [Ok v] is a
      fulfilled promise, [Throw e] a rejected one.  [await] is the bind
      of that monad.
    - The upstream systems are oracles: one function per endpoint, which
      gives for each request either a thrown transport fault or a
      [Response] with its [ok] flag, status, body text and parsed body.
    - Upstream documents are records with the fields the handlers read;
      a field that the handlers guard with [?.], [||] or a truthiness
      test is an [option].  A string field keeps its JavaScript
      truthiness: the empty string is falsy.
    - Strings are sequences of bytes (the UTF-8 form of the JavaScript
      string).  [toLowerCase] is the case mapping of Unicode; its tables
      are not part of the sources, so it is a parameter ([CaseMapping]).
    - A timestamp of a document is the [Date] that [new Date(s)] builds
      from its string [s]: an instant (milliseconds since the epoch), or
      the invalid date when [s] is absent or does not parse.
    - A JavaScript number that a handler computes is a [Number]: an
      integer, [Infinity] or [NaN]; [parseInt] rounds to the nearest
      double.  Counts and identifiers that are only passed on are [nat]
      or [Z].
    - The object literal that [getPRStatus] uses as a dictionary is the
      list of its own properties in the order of their creation,
      together with the properties it inherits from [Object.prototype];
      [Object.entries] lists the own properties, the array indices
      first. *)

From Stdlib Require Import ZArith String Ascii List Bool Lia.
From stdpp Require Import base option list sorting strings pretty.

Local Open Scope string_scope.
Local Open Scope list_scope.
Local Open Scope Z_scope.

(** ** JavaScript values and control flow *)

Module Js.

(** A thrown value: an [Error] object, known by its message. *)
Record Exn := Error { message : string }.

(** The outcome of awaiting a promise. *)
Inductive Result (A : Type) : Type :=
| Ok (value : A)
| Throw (e : Exn).
Arguments Ok {A} value.
Arguments Throw {A} e.

Definition bind {A B} (r : Result A) (k : A -> Result B) : Result B :=
  match r with
  | Ok v => k v
  | Throw e => Throw e
  end.

(** [try { body } catch (error) { handler }] *)
Definition try_catch {A} (body : Result A) (handler : Exn -> Result A)
  : Result A :=
  match body with
  | Ok v => Ok v
  | Throw e => handler e
  end.

(** What a fetch resolves to.  [json] is the outcome of
    [response.json()], which throws when the body does not parse. *)
Record Response (A : Type) : Type := mkResponse {
  ok : bool;
  status : Z;
  text : string;
  json : Result A;
}.
Arguments mkResponse {A} ok status text json.
Arguments ok {A} r.
Arguments status {A} r.
Arguments text {A} r.
Arguments json {A} r.

(** Truthiness of a string: only the empty string is falsy. *)
Definition truthy (s : string) : bool := negb (String.eqb s EmptyString).

(** Truthiness of a field that may be [null] or [undefined]. *)
Definition truthy_field (o : option string) : bool :=
  match o with
  | Some s => truthy s
  | None => false
  end.

(** [a || b] on a possibly undefined string. *)
Definition or_else (o : option string) (fallback : string) : string :=
  match o with
  | Some s => if truthy s then s else fallback
  | None => fallback
  end.

(** [a || null] on a possibly undefined string. *)
Definition or_null (o : option string) : option string :=
  match o with
  | Some s => if truthy s then Some s else None
  | None => None
  end.

(** [a || []] *)
Definition or_empty {A} (o : option (list A)) : list A :=
  match o with
  | Some l => l
  | None => []
  end.

(** Every character of [s] satisfies [p]. *)
Fixpoint all_chars (p : ascii -> bool) (s : string) : bool :=
  match s with
  | EmptyString => true
  | String c s' => p c && all_chars p s'
  end.

(** The ASCII characters, and the ASCII capital letters. *)
Definition is_ascii (c : ascii) : bool :=
  Nat.ltb (nat_of_ascii c) 128.

Definition is_upper (c : ascii) : bool :=
  let n := nat_of_ascii c in
  andb (Nat.leb 65 n) (Nat.leb n 90).

Definition no_upper (c : ascii) : bool := negb (is_upper c).

(** The 26 ASCII capital letters in lower case, every other byte
    unchanged. *)
Definition lower_ascii (c : ascii) : ascii :=
  let n := nat_of_ascii c in
  if andb (Nat.leb 65 n) (Nat.leb n 90) then ascii_of_nat (n + 32) else c.

Fixpoint lower_ascii_letters (s : string) : string :=
  match s with
  | EmptyString => EmptyString
  | String c s' => String (lower_ascii c) (lower_ascii_letters s')
  end.

(** [s.toLowerCase()]: the built-in case mapping of Unicode.  Its
    tables are not part of the sources, so the function is a parameter,
    with the three facts about it that the handlers and their
    properties rely on: on a string of ASCII characters it lowers the 26
    capital letters; it gives the empty string for the empty string
    only; its result has no ASCII capital letter. *)
Class CaseMapping := {
  toLowerCase : string -> string;
  lowers_ascii :
    forall s, all_chars is_ascii s = true ->
              toLowerCase s = lower_ascii_letters s;
  lowers_empty :
    forall s, toLowerCase s = EmptyString <-> s = EmptyString;
  lowers_capitals :
    forall s, all_chars no_upper (toLowerCase s) = true;
}.

(** A [Date] object: an instant in milliseconds since the epoch, or
    the invalid date that [new Date] builds from [undefined] and from a
    string that does not parse. *)
Inductive Date : Type :=
| Instant (ms : Z)
| InvalidDate.
Coercion Instant : Z >-> Date.

(** [a > b] on two dates: the comparison of their time values, false
    as soon as one of them is invalid. *)
Definition date_gt (a b : Date) : bool :=
  match a, b with
  | Instant x, Instant y => y <? x
  | _, _ => false
  end.

(** A number that a handler computes: an integer, [Infinity] or
    [NaN]. *)
Inductive Number : Type :=
| Num (z : Z)
| Infinity
| NaN.
Coercion Num : Z >-> Number.

(** The double nearest to the integer [z >= 0], ties to the even
    significand: exact below [2^53], [Infinity] from [2^1024] on. *)
Definition to_double (z : Z) : Number :=
  if z <? 2 ^ 53 then Num z
  else
    let k := Z.log2 z - 52 in
    let q := Z.shiftr z k in
    let rest := Z.land z (Z.ones k) in
    let half := 2 ^ (k - 1) in
    let q' :=
      if (half <? rest) || ((rest =? half) && Z.odd q) then q + 1 else q in
    let v := Z.shiftl q' k in
    if 2 ^ 1024 <=? v then Infinity else Num v.

(** The rest of [s] after the prefix [p], if [s] starts with [p]. *)
Fixpoint strip_prefix (p s : string) : option string :=
  match p, s with
  | EmptyString, _ => Some s
  | String a p', String b s' =>
      if Ascii.eqb a b then strip_prefix p' s' else None
  | String _ _, EmptyString => None
  end.

(** [s.replace(pattern, replacement)] with a string pattern: the first
    occurrence is replaced. *)
Fixpoint replace (pattern replacement s : string) : string :=
  match strip_prefix pattern s with
  | Some rest => replacement +:+ rest
  | None =>
      match s with
      | EmptyString => EmptyString
      | String c s' => String c (replace pattern replacement s')
      end
  end.

(** The longest prefix of [s] whose characters satisfy [p], and the
    rest of [s]. *)
Fixpoint span (p : ascii -> bool) (s : string) : string * string :=
  match s with
  | EmptyString => (EmptyString, EmptyString)
  | String c s' =>
      if p c
      then let '(taken, rest) := span p s' in (String c taken, rest)
      else (EmptyString, s)
  end.

(** The class [\d]. *)
Definition is_digit (c : ascii) : bool :=
  let n := nat_of_ascii c in
  andb (Nat.leb 48 n) (Nat.leb n 57).

(** The class [[^/]]. *)
Definition not_slash (c : ascii) : bool :=
  negb (Ascii.eqb c "/").

(** [parseInt(s, 10)] on a string of decimal digits: the integer that
    the digits write, as a double. *)
Definition digit_value (c : ascii) : Z :=
  Z.of_nat (nat_of_ascii c) - 48.

Fixpoint parse_digits (acc : Z) (s : string) : Z :=
  match s with
  | EmptyString => acc
  | String c s' => parse_digits (10 * acc + digit_value c) s'
  end.

Definition parseInt (s : string) : Number := to_double (parse_digits 0 s).

(** [Math.ceil(a / b)] for integers [a] and [b > 0]. *)
Definition ceil_div (a b : Z) : Z := - ((- a) / b).

(** [list?.[0]] *)
Definition first {A} (o : option (list A)) : option A :=
  match o with
  | Some (x :: _) => Some x
  | _ => None
  end.

(** The names that every object literal inherits from
    [Object.prototype]; reading one of them on [{}] gives a function
    (for [__proto__], the prototype object), never [undefined]. *)
Definition object_prototype_keys : list string :=
  [ "constructor"; "__defineGetter__"; "__defineSetter__";
    "hasOwnProperty"; "__lookupGetter__"; "__lookupSetter__";
    "isPrototypeOf"; "propertyIsEnumerable"; "toString"; "valueOf";
    "__proto__"; "toLocaleString" ].

Definition inherited (k : string) : bool :=
  bool_decide (k ∈ object_prototype_keys).

(** The own properties of an object literal used as a dictionary with
    values in [V]: the pairs of a key and a value, in the order in which
    the keys were created.  [obj !! k] is the own property [k]. *)
Fixpoint own_property {V} (obj : list (string * V)) (k : string)
  : option V :=
  match obj with
  | [] => None
  | (k', v) :: rest =>
      if String.eqb k' k then Some v else own_property rest k
  end.

Global Instance dict_lookup {V} : Lookup string V (list (string * V)) :=
  fun k obj => own_property obj k.

(** [obj[k] = v]: the value of an own property is replaced where it
    is, a new property comes last. *)
Fixpoint set {V} (obj : list (string * V)) (k : string) (v : V)
  : list (string * V) :=
  match obj with
  | [] => [(k, v)]
  | (k', v') :: rest =>
      if String.eqb k' k then (k, v) :: rest
      else (k', v') :: set rest k v
  end.

(** The array index that a key writes, if it writes one: a decimal
    numeral without a sign or a leading zero, at most [2^32 - 2]. *)
Definition array_index (k : string) : option N :=
  if all_chars is_digit k && truthy k
     && (String.eqb k "0"
         || negb (String.prefix "0" k))
  then
    let v := parse_digits 0 k in
    if v <=? 4294967294 then Some (Z.to_N v) else None
  else None.

(** The own properties whose key is an array index, each with its
    index, in ascending order of the index. *)
Fixpoint insert_indexed {V} (i : N) (e : string * V)
    (l : list (N * (string * V))) : list (N * (string * V)) :=
  match l with
  | [] => [(i, e)]
  | (j, e') :: rest =>
      if (i <? j)%N then (i, e) :: l else (j, e') :: insert_indexed i e rest
  end.

Fixpoint indexed {V} (obj : list (string * V)) : list (N * (string * V)) :=
  match obj with
  | [] => []
  | e :: rest =>
      match array_index e.1 with
      | Some i => insert_indexed i e (indexed rest)
      | None => indexed rest
      end
  end.

Definition named {V} (e : string * V) : bool :=
  match array_index e.1 with
  | Some _ => false
  | None => true
  end.

(** [Object.entries(obj)]: the properties whose key is an array index,
    in ascending order of the index, then the other properties in the
    order of their creation. *)
Definition entries {V} (obj : list (string * V)) : list (string * V) :=
  List.map snd (indexed obj) ++ List.filter named obj.

(** The result of the property read [obj[k]] on an object literal used
    as a dictionary with values in [V]. *)
Inductive Lookup (V : Type) : Type :=
| Undefined
| Inherited
| Own (v : V).
Arguments Undefined {V}.
Arguments Inherited {V}.
Arguments Own {V} v.

Definition get {V} (obj : list (string * V)) (k : string) : Lookup V :=
  match obj !! k with
  | Some v => Own v
  | None => if inherited k then Inherited else Undefined
  end.

End Js.

Import Js.

Declare Scope js_scope.
Delimit Scope js_scope with js.
Notation "'await' x <- e ; k" := (bind e (fun x => k))
  (at level 10, x name, e at level 100, k at level 200) : js_scope.
Local Open Scope js_scope.

(** ** Jira actions *)

Module Jira.

(** *** Upstream documents *)

(** [fields] of an issue: [summary], [status?.name] and
    [assignee?.displayName]. *)
Record IssueFields := mkIssueFields {
  f_summary : string;
  f_status_name : option string;
  f_assignee_displayName : option string;
}.

(** The body of [GET /rest/api/3/issue/{key}], and an element of
    [issues] in the body of [GET /rest/agile/1.0/sprint/{id}/issue]. *)
Record IssueDoc := mkIssueDoc {
  issue_id : string;
  issue_key : string;
  issue_fields : IssueFields;
}.

(** A pull-request reference of the development panel. *)
Record PullRequestRef := mkPullRequestRef {
  pr_url : option string;
  pr_status : option string;
}.

Record Detail := mkDetail {
  pullRequests : option (list PullRequestRef);
}.

(** The body of [GET /rest/dev-status/1.0/issue/detail]. *)
Record PanelDoc := mkPanelDoc {
  detail : option (list Detail);
}.

Record Board := mkBoard {
  board_id : Z;
}.

(** The body of [GET /rest/agile/1.0/board?projectKeyOrId=...]. *)
Record BoardsDoc := mkBoardsDoc {
  board_values : option (list Board);
}.

(** A sprint; [sprint_endDate] is absent when the sprint has no end
    date (an [endDate] that is falsy), and else the date that
    [new Date(sprint.endDate)] builds. *)
Record SprintDoc := mkSprintDoc {
  sprint_id : Z;
  sprint_name : string;
  sprint_goal : option string;
  sprint_endDate : option Date;
}.

(** The body of [GET /rest/agile/1.0/board/{id}/sprint?state=active]. *)
Record SprintsDoc := mkSprintsDoc {
  sprint_values : option (list SprintDoc);
}.

Record SprintIssuesDoc := mkSprintIssuesDoc {
  issues : option (list IssueDoc);
}.

(** *** The upstream: one oracle per [requestJira] route *)
Record Upstream := mkUpstream {
  issue : string -> Result (Response IssueDoc);
  dev_status : string -> Result (Response PanelDoc);
  board : string -> Result (Response BoardsDoc);
  active_sprints : Z -> Result (Response SprintsDoc);
  sprint_issues : Z -> Result (Response SprintIssuesDoc);
}.

(** *** Results *)

Record LinkedPR := mkLinkedPR {
  repo : string;
  number : Number;
  state : string;
}.

Record IssueSummary := mkIssueSummary {
  key : string;
  summary : string;
  status : option string;
  assignee : option string;
}.

Record Issue := mkIssue {
  about : IssueSummary;
  prs : list LinkedPR;
}.

(** The two shapes that [getSprint] returns:
    [{ name, message, issues }] and
    [{ name, goal, daysRemaining, issues }]. *)
Inductive SprintReport : Type :=
| Idle (name : option string) (message : string)
       (issues : list IssueSummary)
| Active (name : string) (goal : option string)
         (daysRemaining : option Number) (issues : list IssueSummary).

(** *** fetchLinkedPRs *)

(** [url.match(/github\.com\/([^/]+\/[^/]+)\/pull\/(\d+)/)] tried at
    the start of [s]: the two captures.  Each [+] is greedy and is
    followed by a character outside its class, so no shorter
    repetition can succeed where the longest one fails. *)
Definition match_here (s : string) : option (string * string) :=
  match strip_prefix "github.com/" s with
  | None => None
  | Some s1 =>
      let '(owner, s2) := span not_slash s1 in
      if negb (truthy owner) then None else
      match strip_prefix "/" s2 with
      | None => None
      | Some s3 =>
          let '(name, s4) := span not_slash s3 in
          if negb (truthy name) then None else
          match strip_prefix "/pull/" s4 with
          | None => None
          | Some s5 =>
              let '(digits, _) := span is_digit s5 in
              if negb (truthy digits) then None
              else Some (owner +:+ "/" +:+ name, digits)
          end
      end
  end.

(** The match of the pattern in [s]: the leftmost position where it
    matches. *)
Fixpoint url_match (s : string) : option (string * string) :=
  match match_here s with
  | Some captures => Some captures
  | None =>
      match s with
      | EmptyString => None
      | String _ s' => url_match s'
      end
  end.

(** The body of the inner loop: the object that is pushed when the URL
    matches. *)
Definition emit {cm : CaseMapping} (pr : PullRequestRef)
  : option LinkedPR :=
  match pr_url pr ≫= url_match with
  | Some (m1, m2) =>
      Some (mkLinkedPR m1 (parseInt m2)
              (or_else (toLowerCase <$> pr_status pr) "unknown"))
  | None => None
  end.

Definition push_pr {cm : CaseMapping} (prs : list LinkedPR)
    (pr : PullRequestRef) : list LinkedPR :=
  match emit pr with
  | Some linked => prs ++ [linked]
  | None => prs
  end.

Definition collect {cm : CaseMapping} (data : PanelDoc) : list LinkedPR :=
  fold_left
    (fun prs detail => fold_left push_pr (or_empty (pullRequests detail)) prs)
    (or_empty (detail data)) [].

Definition fetchLinkedPRs {cm : CaseMapping} (up : Upstream)
    (issueId : string) : Result (list LinkedPR) :=
  try_catch
    (await response <- dev_status up issueId;
     if negb (ok response) then Ok [] else
     await data <- json response;
     Ok (collect data))
    (fun error => Ok []).

(** *** getIssue *)

Definition project_issue (issue : IssueDoc) : IssueSummary :=
  mkIssueSummary (issue_key issue)
    (f_summary (issue_fields issue))
    (f_status_name (issue_fields issue))
    (or_null (f_assignee_displayName (issue_fields issue))).

Definition getIssue {cm : CaseMapping} (up : Upstream) (issueKey : string)
  : Result Issue :=
  await response <- issue up issueKey;
  if negb (ok response)
  then Throw (Error ("Issue not found: " +:+ issueKey)) else
  await issue <- json response;
  await prs <- fetchLinkedPRs up (issue_id issue);
  Ok (mkIssue (project_issue issue) prs).

(** *** getSprint *)

Definition day : Z := 1000 * 60 * 60 * 24.

(** [endDate ? Math.max(0, Math.ceil((endDate - now) / day)) : null];
    the difference with an invalid date is [NaN], and so are its
    ceiling and the maximum. *)
Definition days_remaining (endDate : option Date) (now : Z)
  : option Number :=
  match endDate with
  | Some (Instant endDate) =>
      Some (Num (Z.max 0 (ceil_div (endDate - now) day)))
  | Some InvalidDate => Some NaN
  | None => None
  end.

Definition no_active_sprint : SprintReport :=
  Idle None "No active sprint" [].

(** [now] is the instant that [new Date()] reads. *)
Definition getSprint (up : Upstream) (projectKey : string) (now : Z)
  : Result SprintReport :=
  await boardResponse <- board up projectKey;
  if negb (ok boardResponse)
  then Throw (Error ("No board found for project: " +:+ projectKey)) else
  await boards <- json boardResponse;
  match first (board_values boards) with
  | None => Throw (Error ("No board found for project: " +:+ projectKey))
  | Some board =>
      await sprintResponse <- active_sprints up (board_id board);
      if negb (ok sprintResponse) then Ok no_active_sprint else
      await sprints <- json sprintResponse;
      match first (sprint_values sprints) with
      | None => Ok no_active_sprint
      | Some sprint =>
          await issuesResponse <- sprint_issues up (sprint_id sprint);
          await issuesData <- json issuesResponse;
          let daysRemaining := days_remaining (sprint_endDate sprint) now in
          Ok (Active (sprint_name sprint) (or_null (sprint_goal sprint))
                daysRemaining
                (List.map project_issue (or_empty (issues issuesData))))
      end
  end.

End Jira.

(** ** GitHub actions *)

Module GitHub.

(** *** Upstream documents *)

(** An element of [GET /repos/{repo}/pulls/{number}/reviews] as the
    body gives it: [doc_user_login] is [user.login], absent when [user]
    is null; [doc_submitted_at] is [new Date(submitted_at)], the invalid
    date when the review has no [submitted_at]. *)
Record ReviewDoc := mkReviewDoc {
  doc_user_login : option string;
  doc_state : string;
  doc_submitted_at : Date;
}.

(** A review after the read of [review.user.login]: its user is
    there. *)
Record Review := mkReview {
  user_login : string;
  review_state : string;
  submitted_at : Date;
}.

(** An element of [check_runs]: [name], [status], [conclusion]. *)
Record CheckRun := mkCheckRun {
  name : string;
  run_status : string;
  conclusion : option string;
}.

(** The body of [GET /repos/{repo}/commits/{sha}/check-runs]. *)
Record CheckRunsDoc := mkCheckRunsDoc {
  check_runs : option (list CheckRun);
}.

(** The body of [GET /repos/{repo}/pulls/{number}]; [pr_user_login] is
    [user.login], [pr_head_sha] is [head.sha], and a [mergeable] that
    GitHub has not computed yet is [null]. *)
Record PullDoc := mkPullDoc {
  pr_number : Z;
  pr_title : string;
  pr_user_login : string;
  pr_state : string;
  pr_draft : bool;
  pr_mergeable : option bool;
  pr_mergeable_state : option string;
  pr_additions : Z;
  pr_deletions : Z;
  pr_changed_files : Z;
  pr_head_sha : string;
}.

(** An element of [items] in the body of [GET /search/issues] as the
    body gives it: [raw_user_login] is [user.login], absent when [user]
    is null. *)
Record SearchItemDoc := mkSearchItemDoc {
  raw_number : Z;
  raw_title : string;
  raw_user_login : option string;
  raw_repository_url : string;
  raw_state : string;
}.

(** An item after the read of [pr.user.login]: its user is there. *)
Record SearchItem := mkSearchItem {
  item_number : Z;
  item_title : string;
  item_user_login : string;
  item_repository_url : string;
  item_state : string;
}.

Record SearchDoc := mkSearchDoc {
  items : option (list SearchItemDoc);
}.

(** *** The upstream

    The token store and one oracle per endpoint that [github] is
    called on.  [Promise.all] rejects with the rejection that settles
    first; [pull_settles_first] says which of the two concurrent
    requests of [getPRStatus] that is. *)
Record Upstream := mkUpstream {
  GITHUB_TOKEN : option string;
  pulls : string -> Z -> Result (Response PullDoc);
  pull_reviews : string -> Z -> Result (Response (list ReviewDoc));
  commit_check_runs : string -> string -> Result (Response CheckRunsDoc);
  search_issues : string -> Result (Response SearchDoc);
  pull_settles_first : bool;
}.

(** *** Results *)

Record CheckSummary := mkCheckSummary {
  total : nat;
  passed : nat;
  failed : nat;
  pending : nat;
  failedNames : list string;
}.

Record ReviewSummary := mkReviewSummary {
  approved : list string;
  changesRequested : list string;
}.

Record PRStatus := mkPRStatus {
  number : Z;
  title : string;
  author : string;
  state : string;
  draft : bool;
  mergeable : option bool;
  mergeConflicts : bool;
  additions : Z;
  deletions : Z;
  files : Z;
  reviews : ReviewSummary;
  checks : CheckSummary;
}.

Record SearchHit := mkSearchHit {
  hit_number : Z;
  hit_title : string;
  hit_author : string;
  hit_repo : string;
  hit_state : string;
}.

(** *** Latest review per user (getPRStatus, the first loop) *)

(** Reading [user.login] of a null [user] throws. *)
Definition null_user : Exn :=
  Error "Cannot read properties of null (reading 'login')".

(** The reads of [user.login], element by element; the first null
    user throws. *)
Fixpoint read_all {A B} (read : A -> Result B) (l : list A)
  : Result (list B) :=
  match l with
  | [] => Ok []
  | x :: rest =>
      await y <- read x;
      await ys <- read_all read rest;
      Ok (y :: ys)
  end.

Definition read_review (d : ReviewDoc) : Result Review :=
  match doc_user_login d with
  | Some login => Ok (mkReview login (doc_state d) (doc_submitted_at d))
  | None => Throw null_user
  end.

(** The value stored under a user: [{ state, date }]; [v_date] is
    [new Date(existing.date)]. *)
Record Verdict := mkVerdict {
  v_state : string;
  v_date : Date;
}.

(** [!existing || reviewDate > new Date(existing.date)].  An inherited
    property is truthy and has no [date]: [new Date(undefined)] is an
    invalid date, and every comparison with it is false. *)
Definition replaces (existing : Lookup Verdict) (reviewDate : Date)
  : bool :=
  match existing with
  | Undefined => true
  | Inherited => false
  | Own v => date_gt reviewDate (v_date v)
  end.

(** One iteration of [for (const review of reviews)]. *)
Definition record_review (reviewsByUser : list (string * Verdict))
    (review : Review) : list (string * Verdict) :=
  let user := user_login review in
  let existing := get reviewsByUser user in
  let reviewDate := submitted_at review in
  if replaces existing reviewDate
  then set reviewsByUser user
         (mkVerdict (review_state review) (submitted_at review))
  else reviewsByUser.

Definition reviewsByUser (reviews : list Review)
  : list (string * Verdict) :=
  fold_left record_review reviews [].

(** *** The review partition (getPRStatus, the second loop) *)
Definition classify (acc : list string * list string)
    (entry : string * Verdict) : list string * list string :=
  let '(approved, changesRequested) := acc in
  let '(user, review) := entry in
  let approved :=
    if String.eqb (v_state review) "APPROVED"
    then approved ++ [user] else approved in
  let changesRequested :=
    if String.eqb (v_state review) "CHANGES_REQUESTED"
    then changesRequested ++ [user] else changesRequested in
  (approved, changesRequested).

Definition partition_reviews (m : list (string * Verdict))
  : list string * list string :=
  fold_left classify (entries m) ([], []).

(** *** getGitHubToken, github *)

Definition getGitHubToken (up : Upstream) : Result string :=
  match GITHUB_TOKEN up with
  | Some token =>
      if truthy token then Ok token
      else Throw (Error
        "GITHUB_TOKEN not configured. Run: forge storage set GITHUB_TOKEN <token>")
  | None => Throw (Error
        "GITHUB_TOKEN not configured. Run: forge storage set GITHUB_TOKEN <token>")
  end.

Definition api_error {A} (response : Response A) : Exn :=
  Error ("GitHub API error " +:+ pretty (status response) +:+ ": "
         +:+ text response).

(** [github(path)]; [request] is the outcome of the [fetch] of that
    path. *)
Definition github {A} (up : Upstream) (request : Result (Response A))
  : Result A :=
  await token <- getGitHubToken up;
  await response <- request;
  if negb (ok response) then Throw (api_error response)
  else json response.

(** [await Promise.all([p, q])] *)
Definition promise_all {A B} (left_first : bool)
    (p : Result A) (q : Result B) : Result (A * B) :=
  match p, q with
  | Ok a, Ok b => Ok (a, b)
  | Throw e, Ok _ => Throw e
  | Ok _, Throw e => Throw e
  | Throw e1, Throw e2 => Throw (if left_first then e1 else e2)
  end.

(** *** fetchChecks *)

Definition is_success (c : CheckRun) : bool :=
  bool_decide (conclusion c = Some "success").

(** [c.conclusion && c.conclusion !== 'success'] *)
Definition is_failure (c : CheckRun) : bool :=
  truthy_field (conclusion c) && negb (is_success c).

(** [c.status !== 'completed'] *)
Definition is_pending (c : CheckRun) : bool :=
  negb (String.eqb (run_status c) "completed").

Definition rollup (runs : list CheckRun) : CheckSummary :=
  let passed := length (List.filter is_success runs) in
  let failed := length (List.filter is_failure runs) in
  let pending := length (List.filter is_pending runs) in
  let failedNames := List.map name (List.filter is_failure runs) in
  mkCheckSummary (length runs) passed failed pending failedNames.

Definition fetchChecks (up : Upstream) (repo sha : string)
  : Result CheckSummary :=
  await data <- github up (commit_check_runs up repo sha);
  let runs := or_empty (check_runs data) in
  Ok (rollup runs).

(** *** getPRStatus *)

(** [pr.mergeable === false || pr.mergeable_state === 'dirty'] *)
Definition merge_conflicts (pr : PullDoc) : bool :=
  bool_decide (pr_mergeable pr = Some false)
  || bool_decide (pr_mergeable_state pr = Some "dirty").

(** The part of [getPRStatus] that follows the fetches. *)
Definition assemble (pr : PullDoc) (reviews : list Review)
    (checks : CheckSummary) : PRStatus :=
  let reviewsByUser := reviewsByUser reviews in
  let '(approved, changesRequested) := partition_reviews reviewsByUser in
  let mergeConflicts := merge_conflicts pr in
  mkPRStatus (pr_number pr) (pr_title pr) (pr_user_login pr) (pr_state pr)
    (pr_draft pr) (pr_mergeable pr) mergeConflicts (pr_additions pr)
    (pr_deletions pr) (pr_changed_files pr)
    (mkReviewSummary approved changesRequested) checks.

(** The first loop reads [review.user.login] in each of its turns and
    throws on the first null user; nothing that it did before can be
    seen after the throw, so the embedding does these reads first
    ([read_all read_review]) and then runs the loops on the reviews
    whose user is there ([assemble]). *)
Definition getPRStatus (up : Upstream) (repo : string) (number : Z)
  : Result PRStatus :=
  await fetched <- promise_all (pull_settles_first up)
                     (github up (pulls up repo number))
                     (github up (pull_reviews up repo number));
  let '(pr, reviews) := fetched in
  await checks <- fetchChecks up repo (pr_head_sha pr);
  await reviews <- read_all read_review reviews;
  Ok (assemble pr reviews checks).

(** *** searchPRs *)

Definition project_hit (pr : SearchItem) : SearchHit :=
  mkSearchHit (item_number pr) (item_title pr) (item_user_login pr)
    (replace "https://api.github.com/repos/" EmptyString
       (item_repository_url pr))
    (item_state pr).

Definition read_item (d : SearchItemDoc) : Result SearchItem :=
  match raw_user_login d with
  | Some login =>
      Ok (mkSearchItem (raw_number d) (raw_title d) login
            (raw_repository_url d) (raw_state d))
  | None => Throw null_user
  end.

(** The oracle [search_issues] is asked for the query [is:pr <query>];
    its URL encoding and the page size are part of the request.  The
    callback of [map] reads [pr.user.login] and throws on the first
    null user; as in [getPRStatus] these reads come first. *)
Definition searchPRs (up : Upstream) (query : string)
  : Result (list SearchHit) :=
  let query := "is:pr " +:+ query in
  await data <- github up (search_issues up query);
  await items <- read_all read_item (or_empty (items data));
  Ok (List.map project_hit items).

End GitHub.

(** ** Vocabulary of the specification *)

Module Spec.
Import GitHub.

(** *** Reviews *)

(** [v] is the verdict of the review of [user] with the strictly
    latest timestamp, the first one met among equal timestamps: its
    timestamp is later than that of every review of [user] before it,
    and no review of [user] after it has a later one. *)
Definition is_latest (reviews : list Review) (user : string)
    (v : Verdict) : Prop :=
  exists before r after,
    reviews = before ++ r :: after
    /\ user_login r = user
    /\ v = mkVerdict (review_state r) (submitted_at r)
    /\ (forall r', r' ∈ before -> user_login r' = user ->
          date_gt (submitted_at r) (submitted_at r') = true)
    /\ (forall r', r' ∈ after -> user_login r' = user ->
          date_gt (submitted_at r') (submitted_at r) = false).

(** The mapping [m] holds exactly the latest verdict of [user], or
    nothing when [user] wrote no review. *)
Definition latest_of (reviews : list Review)
    (m : list (string * Verdict)) (user : string) : Prop :=
  match m !! user with
  | Some v => is_latest reviews user v
  | None => forall r, r ∈ reviews -> user_login r <> user
  end.

Definition latest_per_reviewer (reviews : list Review)
    (m : list (string * Verdict)) : Prop :=
  forall user, latest_of reviews m user.

(** Every review of [user] carries a timestamp that parses. *)
Definition dated (reviews : list Review) (user : string) : Prop :=
  forall r, r ∈ reviews -> user_login r = user ->
    submitted_at r <> InvalidDate.

(** The review as the body gives it. *)
Definition as_doc (r : Review) : ReviewDoc :=
  mkReviewDoc (Some (user_login r)) (review_state r) (submitted_at r).

(** The item as the body gives it. *)
Definition as_item_doc (item : SearchItem) : SearchItemDoc :=
  mkSearchItemDoc (item_number item) (item_title item)
    (Some (item_user_login item)) (item_repository_url item)
    (item_state item).

Definition approves (entry : string * Verdict) : bool :=
  String.eqb (v_state entry.2) "APPROVED".

Definition requests_changes (entry : string * Verdict) : bool :=
  String.eqb (v_state entry.2) "CHANGES_REQUESTED".

(** *** Check runs *)

Definition succeeded (c : CheckRun) : Prop :=
  conclusion c = Some "success".

(** A conclusion is present and is not the success outcome. *)
Definition failed_as_stated (c : CheckRun) : Prop :=
  is_Some (conclusion c) /\ conclusion c <> Some "success".

(** A conclusion is present, is not empty and is not the success
    outcome. *)
Definition has_failed (c : CheckRun) : Prop :=
  match conclusion c with
  | Some outcome => outcome <> EmptyString /\ outcome <> "success"
  | None => False
  end.

Definition not_completed (c : CheckRun) : Prop :=
  run_status c <> "completed".

Global Instance succeeded_dec c : Decision (succeeded c).
Proof. unfold succeeded. apply _. Defined.

Global Instance failed_as_stated_dec c : Decision (failed_as_stated c).
Proof. unfold failed_as_stated. apply _. Defined.

Global Instance has_failed_dec c : Decision (has_failed c).
Proof. unfold has_failed. destruct (conclusion c); apply _. Defined.

Global Instance not_completed_dec c : Decision (not_completed c).
Proof. unfold not_completed. apply _. Defined.

(** The number of elements of [l] that satisfy [P]. *)
Definition count {A} (P : A -> Prop) `{forall x, Decision (P x)}
    (l : list A) : nat :=
  length (filter P l).

(** The rollup as the specification words it. *)
Definition rollup_as_stated (runs : list CheckRun) (s : CheckSummary)
  : Prop :=
  total s = length runs
  /\ passed s = count succeeded runs
  /\ failed s = count failed_as_stated runs
  /\ pending s = count not_completed runs.

(** *** Linked pull requests *)

(** The pull-request references of a panel, in the order of the loops. *)
Definition references (data : Jira.PanelDoc) : list Jira.PullRequestRef :=
  d ← or_empty (Jira.detail data); or_empty (Jira.pullRequests d).

(** [s] reads, from its start,
    [github.com/<owner>/<name>/pull/<digits>] and then [post]: the
    owner and the name are not empty and have no slash, and [digits] is
    a run of decimal digits that is not empty. *)
Definition reads_here (s owner name digits post : string) : Prop :=
  s = "github.com/" +:+ owner +:+ "/" +:+ name +:+ "/pull/" +:+ digits
      +:+ post
  /\ owner <> EmptyString /\ all_chars not_slash owner = true
  /\ name <> EmptyString /\ all_chars not_slash name = true
  /\ digits <> EmptyString /\ all_chars is_digit digits = true.

Definition matches_here (s : string) : Prop :=
  exists owner name digits post, reads_here s owner name digits post.

(** The pattern matches somewhere in [u]. *)
Definition matches_pattern (u : string) : Prop :=
  exists pre s, u = pre +:+ s /\ matches_here s.

(** The match of the pattern in [u]: [u] reads as the pattern after
    [pre], the whole run of digits is taken ([post] does not go on with
    a digit), and the pattern matches at no earlier place of [u]. *)
Definition is_pr_url (u owner name digits : string) : Prop :=
  exists pre s post,
    u = pre +:+ s
    /\ reads_here s owner name digits post
    /\ match post with
       | EmptyString => True
       | String c _ => is_digit c = false
       end
    /\ forall a b, pre = a +:+ b -> b <> EmptyString ->
         ~ matches_here (b +:+ s).

(** The integer that a string of decimal digits writes. *)
Fixpoint decimal (s : string) : Z :=
  match s with
  | EmptyString => 0
  | String c s' =>
      digit_value c * 10 ^ Z.of_nat (String.length s') + decimal s'
  end.

(** The number as the specification words it: the decimal id. *)
Definition number_as_stated (digits : string) : Number :=
  Num (decimal digits).

(** The number as a double: the decimal id below [2^53], and above it
    the nearest double. *)
Definition number_amended (digits : string) : Number :=
  to_double (decimal digits).

(** A number that is an integer not below 0, or [Infinity]. *)
Definition not_negative (n : Number) : Prop :=
  match n with
  | Num z => 0 <= z
  | Infinity => True
  | NaN => False
  end.

(** The state as the specification words it: the status lowercased, or
    unknown when the status is absent. *)
Definition state_as_stated {cm : CaseMapping} (status : option string)
  : string :=
  match status with
  | Some s => toLowerCase s
  | None => "unknown"
  end.

(** The state with the empty status taken as an absent one. *)
Definition state_amended {cm : CaseMapping} (status : option string)
  : string :=
  match status with
  | Some s => if decide (s = EmptyString) then "unknown" else toLowerCase s
  | None => "unknown"
  end.

Definition emits_with (number_of : string -> Number)
    (state_of : option string -> string)
    (ref : Jira.PullRequestRef) (pr : Jira.LinkedPR) : Prop :=
  exists u owner name digits,
    Jira.pr_url ref = Some u
    /\ is_pr_url u owner name digits
    /\ Jira.repo pr = owner +:+ "/" +:+ name
    /\ Jira.number pr = number_of digits
    /\ Jira.state pr = state_of (Jira.pr_status ref).

Definition dropped (ref : Jira.PullRequestRef) : Prop :=
  forall u, Jira.pr_url ref = Some u -> ~ matches_pattern u.

(** [prs] has one element for each reference with a matching URL, in
    order, and nothing for the other references. *)
Definition resolves_with (number_of : string -> Number)
    (state_of : option string -> string)
    (data : Jira.PanelDoc) (prs : list Jira.LinkedPR) : Prop :=
  exists f : Jira.PullRequestRef -> option Jira.LinkedPR,
    prs = omap f (references data)
    /\ forall ref,
         match f ref with
         | Some pr => emits_with number_of state_of ref pr
         | None => dropped ref
         end.

(** The panel fetch fails: a thrown transport fault or a response that
    is not a success. *)
Definition panel_fetch_fails (up : Jira.Upstream) (issueId : string)
  : Prop :=
  (exists e, Jira.dev_status up issueId = Throw e)
  \/ (exists r, Jira.dev_status up issueId = Ok r /\ ok r = false).

(** *** Sprints *)

(** No board exists for the project: the board response is not a
    success, or its list of boards is empty. *)
Definition no_board (up : Jira.Upstream) (projectKey : string) : Prop :=
  exists r, Jira.board up projectKey = Ok r
    /\ (ok r = false
        \/ exists doc, json r = Ok doc
                       /\ or_empty (Jira.board_values doc) = []).

Definition found_board (up : Jira.Upstream) (projectKey : string)
    (b : Jira.Board) : Prop :=
  exists r doc rest,
    Jira.board up projectKey = Ok r /\ ok r = true /\ json r = Ok doc
    /\ Jira.board_values doc = Some (b :: rest).

(** The board has no active sprint: the list of its active sprints is
    empty. *)
Definition without_active_sprint (up : Jira.Upstream) (b : Jira.Board)
  : Prop :=
  exists r doc,
    Jira.active_sprints up (Jira.board_id b) = Ok r /\ ok r = true
    /\ json r = Ok doc /\ or_empty (Jira.sprint_values doc) = [].

(** [q] is the ceiling of [a / b]. *)
Definition is_ceiling (q a b : Z) : Prop :=
  (q - 1) * b < a <= q * b.



(** The sprint query gets to its report: a board is found, [sprint]
    is the first of its active sprints, and the body of the issues
    fetch parses to [data]. *)
Definition reaches_sprint (up : Jira.Upstream) (projectKey : string)
    (sprint : Jira.SprintDoc) (data : Jira.SprintIssuesDoc) : Prop :=
  exists b r doc rest ri,
    found_board up projectKey b
    /\ Jira.active_sprints up (Jira.board_id b) = Ok r /\ ok r = true
    /\ json r = Ok doc /\ Jira.sprint_values doc = Some (sprint :: rest)
    /\ Jira.sprint_issues up (Jira.sprint_id sprint) = Ok ri
    /\ json ri = Ok data.


(** *** Hard faults *)

(** The error [e] carries the status and the body of the response. *)
Definition surfaces {A} (r : Response A) (e : Exn) : Prop :=
  exists pre mid post,
    message e = pre +:+ pretty (status r) +:+ mid +:+ text r +:+ post.

(** The sprint query as the specification words it: a response of the
    active-sprints fetch that is not a success aborts the query with an
    error that carries the status and the body. *)
Definition sprint_fault_is_fatal (up : Jira.Upstream)
    (projectKey : string) (now : Z) : Prop :=
  forall b r,
    found_board up projectKey b ->
    Jira.active_sprints up (Jira.board_id b) = Ok r -> ok r = false ->
    exists e, Jira.getSprint up projectKey now = Throw e /\ surfaces r e.

(** The request got a response that is not a success. *)
Definition rejects {A} (request : Result (Response A)) (r : Response A)
  : Prop :=
  request = Ok r /\ ok r = false.

Definition token_configured (up : GitHub.Upstream) : Prop :=
  truthy_field (GITHUB_TOKEN up) = true.

(** *** Further vocabulary *)

(** The request got a response that is a success and whose body parses
    to [a]. *)
Definition fetched {A} (request : Result (Response A)) (a : A) : Prop :=
  exists r, request = Ok r /\ ok r = true /\ json r = Ok a.

(** No two reviews of one user carry the same timestamp. *)
Definition distinct_timestamps (reviews : list Review) : Prop :=
  forall r1 r2, r1 ∈ reviews -> r2 ∈ reviews ->
    user_login r1 = user_login r2 -> submitted_at r1 = submitted_at r2 ->
    r1 = r2.

(** The status and the conclusion of a run agree: a completed run has a
    conclusion, a run that is not completed has none. *)
Definition settled (c : CheckRun) : Prop :=
  (run_status c = "completed" /\ truthy_field (conclusion c) = true)
  \/ (run_status c <> "completed" /\ truthy_field (conclusion c) = false).

(** [p] is a substring of [s]. *)
Definition occurs (p s : string) : Prop :=
  exists a b, s = a +:+ p +:+ b.

(** The address of a pull request on the source-control host. *)
Definition canonical_url (owner name : string) (n : N) : string :=
  "https://github.com/" +:+ owner +:+ "/" +:+ name +:+ "/pull/"
  +:+ pretty n.

Definition not_configured : Exn :=
  Error
    "GITHUB_TOKEN not configured. Run: forge storage set GITHUB_TOKEN <token>".

End Spec.

(** ** Upstreams for the examples *)

Module Scenario.
Import Jira.

Definition project_without_board : Upstream :=
  mkUpstream
    (fun _ => Throw (Error "unused"))
    (fun _ => Throw (Error "unused"))
    (fun _ => Ok (mkResponse true 200 "{}" (Ok (mkBoardsDoc (Some [])))))
    (fun _ => Throw (Error "unused"))
    (fun _ => Throw (Error "unused")).

Definition board_without_sprint : Upstream :=
  mkUpstream
    (fun _ => Throw (Error "unused"))
    (fun _ => Throw (Error "unused"))
    (fun _ => Ok (mkResponse true 200 "{}"
                    (Ok (mkBoardsDoc (Some [mkBoard 7])))))
    (fun _ => Ok (mkResponse true 200 "{}" (Ok (mkSprintsDoc (Some [])))))
    (fun _ => Throw (Error "unused")).

Definition panel_unavailable : Upstream :=
  mkUpstream
    (fun _ => Ok (mkResponse true 200 "{}"
        (Ok (mkIssueDoc "10001" "OPS-1"
               (mkIssueFields "Rotate keys" (Some "To Do") None)))))
    (fun _ => Ok (mkResponse false 503 "busy" (Throw (Error "no JSON"))))
    (fun _ => Throw (Error "unused"))
    (fun _ => Throw (Error "unused"))
    (fun _ => Throw (Error "unused")).

Definition tracker_down : Upstream :=
  mkUpstream
    (fun _ => Ok (mkResponse false 500 "Internal Server Error"
                    (Throw (Error "no JSON"))))
    (fun _ => Throw (Error "unused"))
    (fun _ => Throw (Error "unused"))
    (fun _ => Throw (Error "unused"))
    (fun _ => Throw (Error "unused")).

(** One board, whose active-sprints fetch answers 500. *)
Definition sprints_unavailable : Upstream :=
  mkUpstream
    (fun _ => Throw (Error "unused"))
    (fun _ => Throw (Error "unused"))
    (fun _ => Ok (mkResponse true 200 "{}"
                    (Ok (mkBoardsDoc (Some [mkBoard 7])))))
    (fun _ => Ok (mkResponse false 500 "Internal Server Error"
                    (Throw (Error "no JSON"))))
    (fun _ => Throw (Error "unused")).

(** A GitHub whose pull-request fetch answers 404. *)
Definition pull_missing : GitHub.Upstream :=
  GitHub.mkUpstream (Some "ghp_token")
    (fun _ _ => Ok (mkResponse false 404 "Not Found"
                      (Throw (Error "no JSON"))))
    (fun _ _ => Ok (mkResponse true 200 "[]" (Ok [])))
    (fun _ _ => Throw (Error "unused"))
    (fun _ => Throw (Error "unused"))
    true.

(** A GitHub with no token in the store. *)
Definition token_unset : GitHub.Upstream :=
  GitHub.mkUpstream None
    (fun _ _ => Ok (mkResponse true 200 "{}" (Throw (Error "unused"))))
    (fun _ _ => Ok (mkResponse true 200 "[]" (Ok [])))
    (fun _ _ => Throw (Error "unused"))
    (fun _ => Throw (Error "unused"))
    true.

(** One board with one active sprint, whose issues fetch answers 403
    with a JSON error body. *)
Definition issues_forbidden : Upstream :=
  mkUpstream
    (fun _ => Throw (Error "unused"))
    (fun _ => Throw (Error "unused"))
    (fun _ => Ok (mkResponse true 200 "{}"
                    (Ok (mkBoardsDoc (Some [mkBoard 7])))))
    (fun _ => Ok (mkResponse true 200 "{}"
                    (Ok (mkSprintsDoc
                           (Some [mkSprintDoc 31 "Sprint 31" None None])))))
    (fun _ => Ok (mkResponse false 403 "{}"
                    (Ok (mkSprintIssuesDoc None)))).

(** An issue fetch whose body does not parse. *)
Definition issue_garbled : Upstream :=
  mkUpstream
    (fun _ => Ok (mkResponse true 200 "<html>"
                    (Throw (Error "Unexpected token <"))))
    (fun _ => Throw (Error "unused"))
    (fun _ => Throw (Error "unused"))
    (fun _ => Throw (Error "unused"))
    (fun _ => Throw (Error "unused")).

(** A GitHub whose search answers with one item. *)
Definition search_one : GitHub.Upstream :=
  GitHub.mkUpstream (Some "ghp_token")
    (fun _ _ => Throw (Error "unused"))
    (fun _ _ => Throw (Error "unused"))
    (fun _ _ => Throw (Error "unused"))
    (fun _ => Ok (mkResponse true 200 "{}"
                    (Ok (GitHub.mkSearchDoc (Some
                       [GitHub.mkSearchItemDoc 42 "Fix login"
                          (Some "octocat")
                          "https://api.github.com/repos/acme/widgets"
                          "open"])))))
    true.

(** A case mapping for the examples: the one that lowers the ASCII
    letters and leaves every other byte. *)
Definition ascii_only : CaseMapping.
Proof.
  refine {| toLowerCase := lower_ascii_letters |}.
  - reflexivity.
  - intros s. destruct s; split; intros H; (reflexivity || discriminate).
  - intros s. induction s as [|c s IH]; [reflexivity|].
    simpl. rewrite IH.
    destruct c as [[] [] [] [] [] [] [] []]; reflexivity.
Defined.

(** One board with one active sprint that ends at the instant
    129600000, 36 hours after the epoch. *)
Definition sprint_dated : Upstream :=
  mkUpstream
    (fun _ => Throw (Error "unused"))
    (fun _ => Throw (Error "unused"))
    (fun _ => Ok (mkResponse true 200 "{}"
                    (Ok (mkBoardsDoc (Some [mkBoard 7])))))
    (fun _ => Ok (mkResponse true 200 "{}"
                    (Ok (mkSprintsDoc
                           (Some [mkSprintDoc 31 "Sprint 31" None
                                    (Some (Instant 129600000))])))))
    (fun _ => Ok (mkResponse true 200 "{}"
                    (Ok (mkSprintIssuesDoc (Some []))))).


(** A GitHub whose pull request 42 has one review, left by an account
    that no longer exists: its [user] is null. *)
Definition review_by_ghost : GitHub.Upstream :=
  GitHub.mkUpstream (Some "ghp_token")
    (fun _ _ => Ok (mkResponse true 200 "{}"
                      (Ok (GitHub.mkPullDoc 42 "Fix login" "octocat" "open"
                             false (Some true) (Some "clean") 10 2 1
                             "abc123"))))
    (fun _ _ => Ok (mkResponse true 200 "[]"
                      (Ok [GitHub.mkReviewDoc None "APPROVED"
                             (Instant 10)])))
    (fun _ _ => Ok (mkResponse true 200 "{}"
                      (Ok (GitHub.mkCheckRunsDoc None))))
    (fun _ => Throw (Error "unused"))
    true.

(** A GitHub whose search answers with one item whose [user] is
    null. *)
Definition search_ghost : GitHub.Upstream :=
  GitHub.mkUpstream (Some "ghp_token")
    (fun _ _ => Throw (Error "unused"))
    (fun _ _ => Throw (Error "unused"))
    (fun _ _ => Throw (Error "unused"))
    (fun _ => Ok (mkResponse true 200 "{}"
                    (Ok (GitHub.mkSearchDoc (Some
                       [GitHub.mkSearchItemDoc 42 "Fix login" None
                          "https://api.github.com/repos/acme/widgets"
                          "open"])))))
    true.

End Scenario.
(** ** Proof steps *)

(** Runs a handler along the outcomes that the hypotheses fix: each
    fetch, [ok] flag and parsed body that a hypothesis gives is put in
    its place, and the [await] that follows is taken. *)
Ltac run_with_hyps :=
  repeat match goal with
         | H : ?request = _ |- context [?request] => rewrite H; simpl
         end.

(** ** Object literals as dictionaries *)

Section Objects.
Context {V : Type}.
Implicit Types obj : list (string * V).

Lemma own_set_eq obj k v : set obj k v !! k = Some v.
Proof.
  unfold lookup, dict_lookup. induction obj as [|[k' v'] obj IH]; simpl.
  - by rewrite String.eqb_refl.
  - destruct (String.eqb_spec k' k) as [->|Hne]; simpl.
    + by rewrite String.eqb_refl.
    + destruct (String.eqb_spec k' k); [done|]. exact IH.
Qed.

Lemma own_set_ne obj k k' v : k <> k' -> set obj k v !! k' = obj !! k'.
Proof.
  intros Hne. unfold lookup, dict_lookup.
  induction obj as [|[k0 v0] obj IH]; simpl.
  - destruct (String.eqb_spec k k'); [done|done].
  - destruct (String.eqb_spec k0 k) as [->|Hk]; simpl.
    + destruct (String.eqb_spec k k'); [done|done].
    + destruct (String.eqb_spec k0 k'); [done|]. exact IH.
Qed.

Lemma own_elem_of obj k v : obj !! k = Some v -> (k, v) ∈ obj.
Proof.
  unfold lookup, dict_lookup. induction obj as [|[k' v'] obj IH]; simpl.
  - discriminate.
  - destruct (String.eqb_spec k' k) as [->|Hne].
    + intros [= ->]. apply elem_of_cons. by left.
    + intros H. apply elem_of_cons. right. by apply IH.
Qed.

Lemma elem_of_own obj k v : NoDup obj.*1 -> (k, v) ∈ obj -> obj !! k = Some v.
Proof.
  unfold lookup, dict_lookup. induction obj as [|[k' v'] obj IH]; simpl.
  - intros _ Hin. by apply elem_of_nil in Hin.
  - intros [Hnotin Hnd]%NoDup_cons Hin.
    apply elem_of_cons in Hin as [[= -> ->]|Hin].
    + by rewrite String.eqb_refl.
    + destruct (String.eqb_spec k' k) as [->|Hne]; [|by apply IH].
      destruct Hnotin. apply list_elem_of_fmap. by exists (k, v).
Qed.

Lemma own_None obj k : obj !! k = None <-> k ∉ obj.*1.
Proof.
  unfold lookup, dict_lookup. induction obj as [|[k' v'] obj IH]; simpl.
  - split; [|done]. intros _ Hin. by apply elem_of_nil in Hin.
  - rewrite not_elem_of_cons.
    destruct (String.eqb_spec k' k) as [->|Hne].
    + split; [done|]. by intros [H _].
    + rewrite IH. split; [|by intros [_ H]]. intros H. split; [|done].
      congruence.
Qed.

(** Writing a property keeps the keys apart. *)
Lemma set_NoDup obj k v : NoDup obj.*1 -> NoDup (set obj k v).*1.
Proof.
  induction obj as [|[k' v'] obj IH]; simpl.
  - intros _. apply NoDup_singleton.
  - intros [Hnotin Hnd]%NoDup_cons.
    destruct (String.eqb_spec k' k) as [->|Hne]; simpl.
    + by apply NoDup_cons.
    + apply NoDup_cons. split; [|by apply IH].
      intros Hin. apply list_elem_of_fmap in Hin as ([k0 v0] & Hk & Hin).
      simpl in Hk. subst k0.
      assert (Hl : set obj k v !! k' = Some v0).
      { apply elem_of_own; [by apply IH|done]. }
      rewrite own_set_ne in Hl by done.
      apply Hnotin, list_elem_of_fmap. exists (k', v0).
      split; [done|]. by apply own_elem_of.
Qed.

Lemma insert_indexed_perm i (e : string * V) l :
  insert_indexed i e l ≡ₚ (i, e) :: l.
Proof.
  induction l as [|[j e'] l IH]; simpl; [done|].
  destruct (i <? j)%N; [done|]. rewrite IH. apply perm_swap.
Qed.

Lemma indexed_perm obj :
  List.map snd (indexed obj)
  ≡ₚ List.filter (fun e => negb (named e)) obj.
Proof.
  induction obj as [|e obj IH]; simpl; [done|].
  unfold named at 1. destruct (array_index e.1); simpl; [|done].
  assert (H : List.map snd (insert_indexed n e (indexed obj))
              ≡ₚ e :: List.map snd (indexed obj)).
  { change (List.map snd ?l) with (snd <$> l) at 1.
    rewrite insert_indexed_perm. done. }
  rewrite H. by constructor.
Qed.

Lemma filter_split {A} (f : A -> bool) (l : list A) :
  List.filter (fun x => negb (f x)) l ++ List.filter f l ≡ₚ l.
Proof.
  induction l as [|x l IH]; simpl; [done|]. destruct (f x); simpl.
  - rewrite <- Permutation_middle. by constructor.
  - by constructor.
Qed.

(** [Object.entries] lists every own property once. *)
Lemma entries_perm obj : entries obj ≡ₚ obj.
Proof. unfold entries. rewrite indexed_perm. apply filter_split. Qed.

End Objects.

(** ** Properties of the GitHub actions *)

Section Reviews.
Import GitHub Spec.

Lemma fold_classify entries approved changesRequested :
  fold_left classify entries (approved, changesRequested)
  = (approved ++ List.map fst (List.filter approves entries),
     changesRequested ++ List.map fst (List.filter requests_changes entries)).
Proof.
  revert approved changesRequested.
  induction entries as [|[user review] entries IH]; intros a c; simpl.
  - by rewrite !app_nil_r.
  - rewrite IH. unfold approves, requests_changes. simpl.
    destruct (String.eqb (v_state review) "APPROVED"),
             (String.eqb (v_state review) "CHANGES_REQUESTED");
      simpl; by rewrite <- ?app_assoc.
Qed.

(** The loop over the reviews, one review at a time. *)
Lemma reviewsByUser_snoc reviews review :
  reviewsByUser (reviews ++ [review])
  = record_review (reviewsByUser reviews) review.
Proof. unfold reviewsByUser. by rewrite fold_left_app. Qed.

(** The keys of the object are pairwise different. *)
Lemma reviewsByUser_NoDup reviews : NoDup (reviewsByUser reviews).*1.
Proof.
  induction reviews as [|review reviews IH] using rev_ind.
  - apply NoDup_nil_2.
  - rewrite reviewsByUser_snoc. unfold record_review.
    destruct (replaces _ _); [|done]. by apply set_NoDup.
Qed.

Lemma elem_of_selected (keep : string * Verdict -> bool)
    (m : list (string * Verdict)) (user : string) :
  NoDup m.*1 ->
  user ∈ List.map fst (List.filter keep (entries m))
  <-> exists v, m !! user = Some v /\ keep (user, v) = true.
Proof.
  intros Hnd. rewrite list_elem_of_In, in_map_iff. split.
  - intros [[u v] [Hu Hin]]. simpl in Hu. subst u.
    apply filter_In in Hin as [Hin Hk].
    apply list_elem_of_In in Hin. rewrite entries_perm in Hin.
    exists v. split; [|done]. by apply elem_of_own.
  - intros [v [Hv Hk]]. exists (user, v). split; [done|].
    apply filter_In. split; [|done].
    apply list_elem_of_In. rewrite entries_perm. by apply own_elem_of.
Qed.

Lemma approved_iff pr reviews checks user :
  user ∈ approved (GitHub.reviews (assemble pr reviews checks))
  <-> exists v, reviewsByUser reviews !! user = Some v
                /\ v_state v = "APPROVED".
Proof.
  unfold assemble, partition_reviews. rewrite fold_classify. simpl.
  rewrite elem_of_selected by apply reviewsByUser_NoDup.
  unfold approves. simpl.
  split; intros [v [Hv Hs]]; exists v; split; try done.
  - by apply String.eqb_eq.
  - by apply String.eqb_eq.
Qed.

Lemma changesRequested_iff pr reviews checks user :
  user ∈ changesRequested (GitHub.reviews (assemble pr reviews checks))
  <-> exists v, reviewsByUser reviews !! user = Some v
                /\ v_state v = "CHANGES_REQUESTED".
Proof.
  unfold assemble, partition_reviews. rewrite fold_classify. simpl.
  rewrite elem_of_selected by apply reviewsByUser_NoDup.
  unfold requests_changes. simpl.
  split; intros [v [Hv Hs]]; exists v; split; try done.
  - by apply String.eqb_eq.
  - by apply String.eqb_eq.
Qed.

(** A user whose login is a property of [Object.prototype] is never
    stored. *)
Lemma reviewsByUser_inherited reviews user :
  inherited user = true -> reviewsByUser reviews !! user = None.
Proof.
  intros Hinh. induction reviews as [|review reviews IH] using rev_ind.
  - done.
  - rewrite reviewsByUser_snoc. unfold record_review, get.
    destruct (reviewsByUser reviews !! user_login review) as [v|] eqn:Hv.
    + simpl. destruct (date_gt (submitted_at review) (v_date v)); [|done].
      rewrite own_set_ne; [done|]. intros Heq. congruence.
    + destruct (inherited (user_login review)) eqn:Hk; simpl; [done|].
      rewrite own_set_ne; [done|]. intros Heq. congruence.
Qed.

Lemma date_gt_irrefl a : date_gt a a = false.
Proof. destruct a; simpl; [|done]. apply Z.ltb_irrefl. Qed.

Lemma date_gt_asym a b : date_gt a b = true -> date_gt b a = false.
Proof.
  destruct a, b; simpl; try done. intros H%Z.ltb_lt. apply Z.ltb_ge. lia.
Qed.

(** What is later than the stored date is later than every dated
    review that the stored date bounds. *)
Lemma date_gt_chain a b c :
  date_gt a b = true -> date_gt c b = false -> c <> InvalidDate ->
  date_gt a c = true.
Proof.
  destruct a, b, c; simpl; try done.
  intros H1%Z.ltb_lt H2%Z.ltb_ge _. apply Z.ltb_lt. lia.
Qed.

Lemma date_gt_keeps a b c :
  date_gt a b = true -> date_gt c b = false -> date_gt c a = false.
Proof.
  destruct a, b, c; simpl; try done.
  intros H1%Z.ltb_lt H2%Z.ltb_ge. apply Z.ltb_ge. lia.
Qed.

Lemma is_latest_snoc_other reviews review user v :
  is_latest reviews user v ->
  (user_login review = user ->
   date_gt (submitted_at review) (v_date v) = false) ->
  is_latest (reviews ++ [review]) user v.
Proof.
  intros (before & r & after & -> & Hu & -> & Hb & Ha) Hle.
  exists before, r, (after ++ [review]).
  rewrite <- app_assoc. repeat split; try done.
  intros r' [Hin| ->%list_elem_of_singleton]%elem_of_app Hr'.
  - by apply Ha.
  - by apply Hle.
Qed.

Lemma is_latest_snoc_newer reviews review :
  (forall r', r' ∈ reviews -> user_login r' = user_login review ->
     date_gt (submitted_at review) (submitted_at r') = true) ->
  is_latest (reviews ++ [review]) (user_login review)
    (mkVerdict (review_state review) (submitted_at review)).
Proof.
  intros Hlt. exists reviews, review, []. repeat split; try done.
  intros r' Hin. by apply elem_of_nil in Hin.
Qed.

Lemma is_latest_bound reviews user v r' :
  is_latest reviews user v -> r' ∈ reviews -> user_login r' = user ->
  date_gt (submitted_at r') (v_date v) = false.
Proof.
  intros (before & r & after & -> & Hu & -> & Hb & Ha) Hin Hr'. simpl.
  apply elem_of_app in Hin as [Hin|Hin].
  - by apply date_gt_asym, Hb.
  - apply elem_of_cons in Hin as [->|Hin]; [apply date_gt_irrefl|].
    by apply Ha.
Qed.

(** No review is later than what the object holds for its user, and a
    user with a review has an entry unless the login is inherited. *)
Lemma stored_bound reviews r :
  r ∈ reviews ->
  match reviewsByUser reviews !! user_login r with
  | Some v => date_gt (submitted_at r) (v_date v) = false
  | None => inherited (user_login r) = true
  end.
Proof.
  induction reviews as [|x reviews IH] using rev_ind.
  - intros Hin. by apply elem_of_nil in Hin.
  - intros Hin. rewrite reviewsByUser_snoc. unfold record_review, get.
    destruct (decide (user_login x = user_login r)) as [Heq|Hne].
    + rewrite Heq.
      apply elem_of_app in Hin as [Hin|Hin].
      * specialize (IH Hin).
        destruct (reviewsByUser reviews !! user_login r) as [v|] eqn:Hv.
        -- simpl. destruct (date_gt (submitted_at x) (v_date v)) eqn:Hgt.
           ++ rewrite own_set_eq. simpl. by apply (date_gt_keeps _ (v_date v)).
           ++ by rewrite Hv.
        -- rewrite IH. simpl. by rewrite Hv.
      * apply list_elem_of_singleton in Hin. subst x. clear IH Heq.
        destruct (reviewsByUser reviews !! user_login r) as [v|] eqn:Hv.
        -- simpl. destruct (date_gt (submitted_at r) (v_date v)) eqn:Hgt.
           ++ rewrite own_set_eq. simpl. apply date_gt_irrefl.
           ++ by rewrite Hv.
        -- destruct (inherited (user_login r)) eqn:Hinh; simpl.
           ++ by rewrite Hv.
           ++ rewrite own_set_eq. simpl. apply date_gt_irrefl.
    + assert (Hin' : r ∈ reviews).
      { apply elem_of_app in Hin as [Hin|Hin%list_elem_of_singleton];
          [done|congruence]. }
      specialize (IH Hin').
      destruct (replaces _ _); [|done]. by rewrite own_set_ne.
Qed.

(** For every login that is not a property of [Object.prototype] and
    whose reviews all carry a timestamp that parses, the mapping holds
    the verdict of the review with the strictly latest timestamp, the
    first one met among equal timestamps. *)
Lemma reviewsByUser_latest reviews user :
  inherited user = false -> dated reviews user ->
  latest_of reviews (reviewsByUser reviews) user.
Proof.
  intros Hinh. unfold latest_of.
  induction reviews as [|review reviews IH] using rev_ind; intros Hdated.
  - intros r Hin. by apply elem_of_nil in Hin.
  - assert (Hdated' : dated reviews user).
    { intros r Hr. apply Hdated, elem_of_app. by left. }
    specialize (IH Hdated').
    rewrite reviewsByUser_snoc. unfold record_review, get.
    destruct (decide (user_login review = user)) as [Heq|Hne].
    + subst user.
      destruct (reviewsByUser reviews !! user_login review) as [v|] eqn:Hv.
      * simpl.
        destruct (date_gt (submitted_at review) (v_date v)) eqn:Hgt.
        -- rewrite own_set_eq.
           apply is_latest_snoc_newer. intros r' Hin Hr'.
           apply (date_gt_chain _ (v_date v)); [done| |].
           ++ by apply (is_latest_bound reviews (user_login review)).
           ++ by apply Hdated'.
        -- rewrite Hv. by apply is_latest_snoc_other.
      * rewrite Hinh. simpl. rewrite own_set_eq.
        apply is_latest_snoc_newer. intros r' Hin Hr'.
        exfalso. by apply (IH r' Hin).
    + assert (Hsame :
        (if replaces
              match reviewsByUser reviews !! user_login review with
              | Some v => Own v
              | None => if inherited (user_login review)
                        then Inherited else Undefined
              end (submitted_at review)
         then set (reviewsByUser reviews) (user_login review)
                (mkVerdict (review_state review) (submitted_at review))
         else reviewsByUser reviews) !! user
        = reviewsByUser reviews !! user).
      { destruct (replaces _ _); [|done]. by rewrite own_set_ne. }
      rewrite Hsame.
      destruct (reviewsByUser reviews !! user) as [v|].
      * apply is_latest_snoc_other; [done|]. intros. congruence.
      * intros r [Hin| ->%list_elem_of_singleton]%elem_of_app; [|done].
        by apply IH.
Qed.

(** C9. In the status assembled from any list of reviews no user is in
    both [approved] and [changesRequested], and a user whose stored
    state is neither APPROVED nor CHANGES_REQUESTED is in neither of the
    two lists. *)
Theorem review_partition_disjoint pr reviews checks user :
  ~ (user ∈ approved (GitHub.reviews (assemble pr reviews checks))
     /\ user ∈ changesRequested (GitHub.reviews (assemble pr reviews checks)))
  /\ (forall v, reviewsByUser reviews !! user = Some v ->
        v_state v <> "APPROVED" -> v_state v <> "CHANGES_REQUESTED" ->
        (user ∉ approved (GitHub.reviews (assemble pr reviews checks)))
        /\ (user ∉ changesRequested
                    (GitHub.reviews (assemble pr reviews checks)))).
Proof.
  split.
  - rewrite approved_iff, changesRequested_iff.
    intros [[v [Hv Ha]] [v' [Hv' Hc]]]. congruence.
  - intros v Hv Hna Hnc. rewrite approved_iff, changesRequested_iff.
    split; intros [v' [Hv' Hs]]; congruence.
Qed.

Lemma review_partition_disjoint_witness :
  ("c" ∉ approved (GitHub.reviews (assemble
          (mkPullDoc 7 "t" "a" "open" false None None 1 1 1 "sha")
          [mkReview "c" "COMMENTED" 10; mkReview "b" "APPROVED" 11]
          (rollup []))))
  /\ ("c" ∉ changesRequested (GitHub.reviews (assemble
          (mkPullDoc 7 "t" "a" "open" false None None 1 1 1 "sha")
          [mkReview "c" "COMMENTED" 10; mkReview "b" "APPROVED" 11]
          (rollup [])))).
Proof.
  apply (proj2 (review_partition_disjoint
           (mkPullDoc 7 "t" "a" "open" false None None 1 1 1 "sha")
           [mkReview "c" "COMMENTED" 10; mkReview "b" "APPROVED" 11]
           (rollup []) "c") (mkVerdict "COMMENTED" 10)).
  - vm_compute. reflexivity.
  - simpl. discriminate.
  - simpl. discriminate.
Defined.

(** C1, at a review whose author has the login [constructor].  The read
    [reviewsByUser[user]] finds the inherited [Object.prototype.constructor],
    the review is not stored, and the mapping has no entry for its
    author. *)
Theorem review_by_constructor_is_dropped :
  let reviews := [mkReview "constructor" "APPROVED" 1704067200000] in
  reviewsByUser reviews !! "constructor" = None
  /\ partition_reviews (reviewsByUser reviews) = ([], [])
  /\ ~ latest_per_reviewer reviews (reviewsByUser reviews).
Proof.
  simpl. split; [by vm_compute|]. split; [by vm_compute|].
  intros H. specialize (H "constructor"). unfold latest_of in H.
  replace (reviewsByUser [mkReview "constructor" "APPROVED" 1704067200000]
             !! "constructor") with (@None Verdict) in H by (by vm_compute).
  apply (H (mkReview "constructor" "APPROVED" 1704067200000)).
  - apply list_elem_of_singleton. reflexivity.
  - reflexivity.
Qed.

End Reviews.

Section Aggregation.
Import GitHub Spec.

(** What [getPRStatus] returns is the status assembled from the three
    fetched documents, the reviews read with their users. *)
Lemma getPRStatus_assembles up repo number result :
  getPRStatus up repo number = Ok result ->
  exists pr docs reviews runs,
    github up (pulls up repo number) = Ok pr
    /\ github up (pull_reviews up repo number) = Ok docs
    /\ read_all read_review docs = Ok reviews
    /\ github up (commit_check_runs up repo (pr_head_sha pr))
       = Ok (mkCheckRunsDoc runs)
    /\ result = assemble pr reviews (rollup (or_empty runs)).
Proof.
  unfold getPRStatus, fetchChecks.
  destruct (github up (pulls up repo number)) as [pr|e1] eqn:Hpr;
    destruct (github up (pull_reviews up repo number)) as [docs|e2]
      eqn:Hdocs;
    simpl; try discriminate.
  destruct (github up (commit_check_runs up repo (pr_head_sha pr)))
    as [[runs]|e3] eqn:Hruns; simpl; [|discriminate].
  destruct (read_all read_review docs) as [reviews|e4] eqn:Hreviews; simpl;
    [|discriminate].
  intros [= <-]. by exists pr, docs, reviews, runs.
Qed.


Lemma count_filter {A} (f : A -> bool) (P : A -> Prop)
    `{forall x, Decision (P x)} (l : list A) :
  (forall x, f x = true <-> P x) ->
  length (List.filter f l) = count P l.
Proof.
  intros Hf. unfold count. induction l as [|x l IH]; [done|].
  simpl. rewrite filter_cons. destruct (decide (P x)) as [HP|HP].
  - apply Hf in HP. rewrite HP. simpl. by rewrite IH.
  - destruct (f x) eqn:Hx; [|done]. by apply Hf in Hx.
Qed.

Lemma is_success_iff c : is_success c = true <-> succeeded c.
Proof. unfold is_success, succeeded. by rewrite bool_decide_eq_true. Qed.

Lemma is_failure_iff c : is_failure c = true <-> has_failed c.
Proof.
  unfold is_failure, is_success, has_failed, truthy_field, truthy.
  destruct (conclusion c) as [outcome|]; simpl; [|done].
  rewrite andb_true_iff, !negb_true_iff, bool_decide_eq_false.
  rewrite String.eqb_neq. split; intros [H1 H2]; split; congruence.
Qed.

Lemma is_pending_iff c : is_pending c = true <-> not_completed c.
Proof.
  unfold is_pending, not_completed.
  by rewrite negb_true_iff, String.eqb_neq.
Qed.

Lemma count_app {A} (P : A -> Prop) `{forall x, Decision (P x)}
    (l1 l2 : list A) :
  count P (l1 ++ l2) = (count P l1 + count P l2)%nat.
Proof. unfold count. by rewrite filter_app, length_app. Qed.

Lemma count_insert {A} (P : A -> Prop) `{forall x, Decision (P x)}
    (l1 l2 : list A) (x : A) :
  P x -> count P (l1 ++ x :: l2) = S (count P (l1 ++ l2)).
Proof.
  intros HP. rewrite !count_app. unfold count at 2.
  rewrite filter_cons_True by done. simpl. unfold count. lia.
Qed.

(** The four counts of the rollup. *)
Lemma rollup_counts runs :
  total (rollup runs) = length runs
  /\ passed (rollup runs) = count succeeded runs
  /\ failed (rollup runs) = count has_failed runs
  /\ pending (rollup runs) = count not_completed runs.
Proof.
  unfold rollup. simpl. repeat split.
  - apply count_filter, is_success_iff.
  - apply count_filter, is_failure_iff.
  - apply count_filter, is_pending_iff.
Qed.

(** C4, as stated, fails at one completed run whose conclusion is the
    empty string: the conclusion is present and is not success, and the
    run is not counted as failed. *)
Lemma rollup_empty_conclusion_not_failed :
  ~ rollup_as_stated [mkCheckRun "lint" "completed" (Some EmptyString)]
      (rollup [mkCheckRun "lint" "completed" (Some EmptyString)]).
Proof.
  intros (_ & _ & Hfailed & _). vm_compute in Hfailed. discriminate.
Qed.

(** C4, amended.  [total] is the number of runs, [passed] the number of
    runs whose conclusion is success, [failed] the number of runs whose
    conclusion is present, not empty and not success, [pending] the
    number of runs whose status is not completed; a run that is not
    completed and has such a failed conclusion adds one to [failed] and
    one to [pending]. *)
Theorem rollup_counts_amended runs :
  (total (rollup runs) = length runs
   /\ passed (rollup runs) = count succeeded runs
   /\ failed (rollup runs) = count has_failed runs
   /\ pending (rollup runs) = count not_completed runs)
  /\ (forall before c after,
        runs = before ++ c :: after ->
        not_completed c -> has_failed c ->
        failed (rollup runs) = S (failed (rollup (before ++ after)))
        /\ pending (rollup runs) = S (pending (rollup (before ++ after)))).
Proof.
  split; [apply rollup_counts|].
  intros before c after -> Hpending Hfailed.
  destruct (rollup_counts (before ++ c :: after)) as (_ & _ & -> & ->).
  destruct (rollup_counts (before ++ after)) as (_ & _ & -> & ->).
  split; by apply count_insert.
Qed.

Lemma rollup_counts_amended_witness :
  failed (rollup [mkCheckRun "build" "in_progress" (Some "failure");
                  mkCheckRun "lint" "completed" (Some "success")])
  = S (failed (rollup [mkCheckRun "lint" "completed" (Some "success")]))
  /\ pending (rollup [mkCheckRun "build" "in_progress" (Some "failure");
                      mkCheckRun "lint" "completed" (Some "success")])
     = S (pending (rollup [mkCheckRun "lint" "completed" (Some "success")])).
Proof.
  apply (proj2 (rollup_counts_amended
                  [mkCheckRun "build" "in_progress" (Some "failure");
                   mkCheckRun "lint" "completed" (Some "success")])
           [] (mkCheckRun "build" "in_progress" (Some "failure"))
           [mkCheckRun "lint" "completed" (Some "success")]).
  - reflexivity.
  - unfold not_completed. simpl. discriminate.
  - unfold has_failed. simpl. split; discriminate.
Defined.

End Aggregation.

(** ** Strings and the URL pattern *)

Section Pattern.
Import Jira Spec.

Local Arguments String.append !_ _ / : simpl nomatch.

Lemma string_app_cons c (a b : string) :
  String c a +:+ b = String c (a +:+ b).
Proof. reflexivity. Qed.

Lemma string_app_nil_r (a : string) : a +:+ EmptyString = a.
Proof.
  induction a as [|x a IH]; [done|]. simpl. by rewrite IH.
Qed.

Lemma truthy_iff s : truthy s = true <-> s <> EmptyString.
Proof. unfold truthy. by rewrite negb_true_iff, String.eqb_neq. Qed.

Lemma strip_prefix_Some p s rest :
  strip_prefix p s = Some rest <-> s = p +:+ rest.
Proof.
  revert s. induction p as [|a p IH]; intros s; simpl.
  - split; congruence.
  - destruct s as [|b s].
    + split; discriminate.
    + destruct (Ascii.eqb_spec a b) as [->|Hne].
      * rewrite IH. split; congruence.
      * split; [discriminate|]. intros [= -> _]. done.
Qed.

Lemma strip_prefix_app p rest : strip_prefix p (p +:+ rest) = Some rest.
Proof. by apply strip_prefix_Some. Qed.

(** [span] splits the string, what it takes is in the class, and what
    it leaves does not start in the class. *)
Lemma span_spec p s taken rest :
  span p s = (taken, rest) ->
  s = taken +:+ rest /\ all_chars p taken = true
  /\ match rest with
     | EmptyString => True
     | String c _ => p c = false
     end.
Proof.
  revert taken rest. induction s as [|c s IH]; intros taken rest; simpl.
  - intros [= <- <-]. done.
  - destruct (p c) eqn:Hc.
    + destruct (span p s) as [t r]. intros [= <- <-].
      destruct (IH t r eq_refl) as (-> & Ht & Hr).
      rewrite ?string_app_cons. simpl. rewrite Hc. done.
    + intros [= <- <-]. simpl. by rewrite Hc.
Qed.

(** A run of the class is taken whole, and [span] goes on after it. *)
Lemma span_app p taken s :
  all_chars p taken = true ->
  span p (taken +:+ s) = ((taken +:+ (span p s).1), (span p s).2).
Proof.
  induction taken as [|c taken IH]; simpl.
  - intros _. change (EmptyString +:+ s) with s. by destruct (span p s).
  - intros [Hc Ht]%andb_true_iff. rewrite ?string_app_cons. simpl.
    rewrite Hc, (IH Ht). done.
Qed.

Lemma span_stop p c t s :
  p c = false -> span p (String c t +:+ s) = (EmptyString, String c t +:+ s).
Proof. intros Hc. rewrite ?string_app_cons. simpl. by rewrite Hc. Qed.

Lemma app_nonempty_l (a b : string) : a <> EmptyString -> a +:+ b <> EmptyString.
Proof. by destruct a. Qed.

(** A match at the start of [s] is a reading of [s] as the pattern,
    with the whole run of digits. *)
Lemma match_here_sound s m1 m2 :
  match_here s = Some (m1, m2) ->
  exists owner name post,
    reads_here s owner name m2 post
    /\ m1 = owner +:+ "/" +:+ name
    /\ match post with
       | EmptyString => True
       | String c _ => is_digit c = false
       end.
Proof.
  unfold match_here, reads_here.
  destruct (strip_prefix "github.com/" s) as [s1|] eqn:H1; [|discriminate].
  destruct (span not_slash s1) as [owner s2] eqn:H2.
  destruct (truthy owner) eqn:Ho; cbn [negb]; [|discriminate].
  destruct (strip_prefix "/" s2) as [s3|] eqn:H3; [|discriminate].
  destruct (span not_slash s3) as [name s4] eqn:H4.
  destruct (truthy name) eqn:Hn; cbn [negb]; [|discriminate].
  destruct (strip_prefix "/pull/" s4) as [s5|] eqn:H5; [|discriminate].
  destruct (span is_digit s5) as [digits post] eqn:H6.
  destruct (truthy digits) eqn:Hd; cbn [negb]; [|discriminate].
  intros [= <- <-].
  apply strip_prefix_Some in H1, H3, H5.
  apply span_spec in H2 as (-> & Hos & _).
  apply span_spec in H4 as (-> & Hns & _).
  apply span_spec in H6 as (-> & Hds & Hpost).
  apply truthy_iff in Ho, Hn, Hd.
  exists owner, name, post. subst. repeat split; done.
Qed.

(** A string that reads as the pattern from its start has its match
    there: the owner and the name that it reads, and the digits that it
    reads with those that follow them. *)
Lemma match_here_reads s owner name digits post :
  reads_here s owner name digits post ->
  match_here s
  = Some (owner +:+ "/" +:+ name, digits +:+ (span is_digit post).1).
Proof.
  intros (-> & Ho & Hos & Hn & Hns & Hd & Hds). unfold match_here.
  rewrite strip_prefix_app.
  rewrite (span_app _ _ _ Hos).
  rewrite (span_stop not_slash "/"%char) by reflexivity. cbn [fst snd].
  rewrite string_app_nil_r.
  apply truthy_iff in Ho, Hn. rewrite Ho. cbn [negb].
  rewrite strip_prefix_app.
  rewrite (span_app _ _ _ Hns).
  rewrite (span_stop not_slash "/"%char) by reflexivity. cbn [fst snd].
  rewrite string_app_nil_r. rewrite Hn. cbn [negb].
  rewrite strip_prefix_app.
  rewrite (span_app _ _ _ Hds).
  destruct (span is_digit post) as [more rest]. cbn [fst snd].
  assert (Hne : digits +:+ more <> EmptyString) by by apply app_nonempty_l.
  apply truthy_iff in Hne. rewrite Hne. done.
Qed.

Lemma match_here_complete s : matches_here s -> is_Some (match_here s).
Proof.
  intros (owner & name & digits & post & Hreads).
  rewrite (match_here_reads _ _ _ _ _ Hreads). by eexists.
Qed.

Lemma span_no_digit post :
  match post with
  | EmptyString => True
  | String c _ => is_digit c = false
  end ->
  span is_digit post = (EmptyString, post).
Proof. destruct post as [|c post]; [done|]. simpl. by intros ->. Qed.

Lemma string_app_empty (a b : string) :
  a +:+ b = EmptyString -> a = EmptyString /\ b = EmptyString.
Proof. by destruct a, b. Qed.

(** The match that [url_match] finds is the match of the pattern in
    [u]: the leftmost one, with the whole run of digits. *)
Lemma url_match_sound u m1 m2 :
  url_match u = Some (m1, m2) ->
  exists owner name, is_pr_url u owner name m2 /\ m1 = owner +:+ "/" +:+ name.
Proof.
  induction u as [|c u IH].
  - intros H. vm_compute in H. discriminate.
  - cbn [url_match].
    destruct (match_here (String c u)) as [[a b]|] eqn:Hm.
    + intros [= -> ->].
      apply match_here_sound in Hm as (owner & name & post & Hs & -> & Hpost).
      exists owner, name. split; [|done].
      exists EmptyString, (String c u), post.
      refine (conj eq_refl (conj Hs (conj Hpost _))).
      intros a b Hab Hb. symmetry in Hab.
      apply string_app_empty in Hab as [_ ->]. done.
    + intros H. destruct (IH H) as (owner & name & Hurl & ->).
      exists owner, name. split; [|done].
      destruct Hurl as (pre & s & post & -> & Hreads & Hpost & Hleft).
      exists (String c pre), s, post.
      refine (conj eq_refl (conj Hreads (conj Hpost _))).
      intros [|c' a] b Hab Hb.
      * simpl in Hab. subst b. intros Hmatch.
        apply match_here_complete in Hmatch as [captures Hc].
        simpl in Hc. congruence.
      * simpl in Hab. injection Hab as -> ->. by apply (Hleft a b).
Qed.

Lemma url_match_complete u : matches_pattern u -> is_Some (url_match u).
Proof.
  intros (pre & s & -> & Hmatch).
  induction pre as [|c pre IH].
  - simpl. apply match_here_complete in Hmatch as [captures Hc].
    destruct s; cbn [url_match]; rewrite Hc; by eexists.
  - simpl. cbn [url_match].
    destruct (match_here _); [by eexists|]. apply IH.
Qed.

(** The match of the pattern in [u] is what [url_match] finds, so [u]
    has one match at most. *)
Lemma url_match_exact u owner name digits :
  is_pr_url u owner name digits ->
  url_match u = Some (owner +:+ "/" +:+ name, digits).
Proof.
  intros (pre & s & post & -> & Hreads & Hpost & Hleft).
  induction pre as [|c pre IH].
  - simpl. pose proof (match_here_reads _ _ _ _ _ Hreads) as Hm.
    rewrite (span_no_digit _ Hpost) in Hm. cbn [fst] in Hm.
    rewrite string_app_nil_r in Hm.
    destruct s; cbn [url_match]; by rewrite Hm.
  - simpl. cbn [url_match].
    destruct (match_here (String c (pre +:+ s))) as [[m1 m2]|] eqn:Hm.
    + destruct (Hleft EmptyString (String c pre) eq_refl ltac:(done)).
      apply match_here_sound in Hm as (o & n & p & Hr & _ & _).
      by exists o, n, m2, p.
    + apply IH. intros a b -> Hb. by apply (Hleft (String c a) b).
Qed.

Lemma fold_push_pr {cm : CaseMapping} refs prs :
  fold_left push_pr refs prs = prs ++ omap emit refs.
Proof.
  revert prs. induction refs as [|ref refs IH]; intros prs; simpl.
  - by rewrite app_nil_r.
  - rewrite IH. unfold push_pr. destruct (emit ref); [|done].
    by rewrite <- app_assoc.
Qed.

(** The two loops push, in order, what [emit] gives for each
    reference. *)
Lemma collect_omap {cm : CaseMapping} data :
  collect data = omap emit (references data).
Proof.
  unfold collect, references.
  generalize (or_empty (detail data)). intros details.
  change (omap emit (details ≫= λ d, or_empty (pullRequests d)))
    with ([] ++ omap emit (details ≫= λ d, or_empty (pullRequests d))).
  generalize (@nil LinkedPR). intros prs. revert prs.
  induction details as [|d details IH]; intros prs; simpl.
  - by rewrite app_nil_r.
  - rewrite IH, fold_push_pr, omap_app. by rewrite <- app_assoc.
Qed.

(** [parse_digits] reads the integer that the digits write. *)
Lemma parse_digits_decimal acc s :
  parse_digits acc s = acc * 10 ^ Z.of_nat (String.length s) + decimal s.
Proof.
  revert acc. induction s as [|c s IH]; intros acc.
  - simpl. lia.
  - cbn [parse_digits decimal String.length]. rewrite IH.
    rewrite Nat2Z.inj_succ, Z.pow_succ_r by lia. lia.
Qed.

Lemma parseInt_decimal s : parseInt s = number_amended s.
Proof.
  unfold parseInt, number_amended. rewrite parse_digits_decimal.
  f_equal; lia.
Qed.

(** Below [2^53] the double is the integer itself. *)
Lemma to_double_exact z : z < 2 ^ 53 -> to_double z = Num z.
Proof.
  intros Hz. unfold to_double.
  destruct (Z.ltb_spec z (2 ^ 53)); [done|lia].
Qed.

Lemma state_amended_correct {cm : CaseMapping} status :
  or_else (toLowerCase <$> status) "unknown" = state_amended status.
Proof.
  destruct status as [s|]; [|done]. simpl. unfold truthy.
  destruct (decide (s = EmptyString)) as [->|Hne].
  - rewrite (proj2 (lowers_empty EmptyString) eq_refl). done.
  - destruct (String.eqb_spec (toLowerCase s) EmptyString) as [He|_];
      [|done].
    apply (proj1 (lowers_empty s)) in He. done.
Qed.

(** What [emit] gives for a reference. *)
Lemma emit_spec {cm : CaseMapping} ref :
  match emit ref with
  | Some pr => emits_with number_amended state_amended ref pr
  | None => dropped ref
  end.
Proof.
  unfold emit. destruct (pr_url ref) as [u|] eqn:Hu; simpl.
  - destruct (url_match u) as [[m1 m2]|] eqn:Hm.
    + apply url_match_sound in Hm as (owner & name & Hurl & ->).
      exists u, owner, name, m2. simpl.
      repeat split; try done.
      * apply parseInt_decimal.
      * apply state_amended_correct.
    + intros u' Hu' Hmatch. assert (u' = u) as -> by congruence.
      apply url_match_complete in Hmatch as [m Hm']. congruence.
  - intros u' Hu'. congruence.
Qed.

(** The description fixes the result: a function that meets it on
    every reference is [emit]. *)
Lemma emit_unique {cm : CaseMapping}
    (f : PullRequestRef -> option LinkedPR) :
  (forall ref,
     match f ref with
     | Some pr => emits_with number_amended state_amended ref pr
     | None => dropped ref
     end) ->
  forall ref, f ref = emit ref.
Proof.
  intros Hf ref. specialize (Hf ref). unfold emit.
  destruct (f ref) as [pr|].
  - destruct Hf as (u & owner & name & digits & Hu & Hurl & Hrepo & Hnum
                    & Hstate).
    rewrite Hu. cbn [mbind option_bind].
    rewrite (url_match_exact _ _ _ _ Hurl).
    rewrite parseInt_decimal, state_amended_correct.
    destruct pr as [r n st]. simpl in Hrepo, Hnum, Hstate. by subst.
  - destruct (pr_url ref) as [u|] eqn:Hu; [|done]. cbn [mbind option_bind].
    destruct (url_match u) as [[m1 m2]|] eqn:Hm; [|done].
    destruct (Hf u Hu).
    apply url_match_sound in Hm as (owner & name & Hurl & _).
    destruct Hurl as (pre & s & post & Hpre & Hreads & _).
    exists pre, s. split; [done|]. by exists owner, name, m2, post.
Qed.

Lemma omap_pointwise {A B} (f g : A -> option B) (l : list A) :
  (forall x, f x = g x) -> omap f l = omap g l.
Proof.
  intros Hfg. induction l as [|x l IH]; [done|].
  cbn [omap list_omap]. by rewrite Hfg, IH.
Qed.

(** C7, as stated, fails at a reference with a matching URL and the
    empty string as status: the specification gives the empty state,
    [fetchLinkedPRs] gives the state unknown.  It also fails at the
    pull request 9007199254740993: the number that [parseInt] gives is
    the double 9007199254740992. *)
Lemma linked_pr_empty_status :
  ~ resolves_with number_as_stated (state_as_stated (cm := Scenario.ascii_only))
      (mkPanelDoc (Some [mkDetail (Some
         [mkPullRequestRef (Some "https://github.com/acme/widgets/pull/42")
            (Some EmptyString)])]))
      (collect (cm := Scenario.ascii_only) (mkPanelDoc (Some [mkDetail (Some
         [mkPullRequestRef (Some "https://github.com/acme/widgets/pull/42")
            (Some EmptyString)])])))
  /\ ~ resolves_with number_as_stated
         (state_as_stated (cm := Scenario.ascii_only))
         (mkPanelDoc (Some [mkDetail (Some
            [mkPullRequestRef
               (Some "https://github.com/acme/widgets/pull/9007199254740993")
               (Some "OPEN")])]))
         (collect (cm := Scenario.ascii_only)
            (mkPanelDoc (Some [mkDetail (Some
              [mkPullRequestRef
                 (Some "https://github.com/acme/widgets/pull/9007199254740993")
                 (Some "OPEN")])]))).
Proof.
  split.
  - intros (f & Hf & Hspec).
    specialize (Hspec (mkPullRequestRef
      (Some "https://github.com/acme/widgets/pull/42") (Some EmptyString))).
    vm_compute in Hf.
    destruct (f _) as [pr|]; [|discriminate].
    injection Hf as <-.
    destruct Hspec as (u & owner & name & digits & _ & _ & _ & _ & Hstate).
    vm_compute in Hstate. discriminate.
  - intros (f & Hf & Hspec).
    specialize (Hspec (mkPullRequestRef
      (Some "https://github.com/acme/widgets/pull/9007199254740993")
      (Some "OPEN"))).
    vm_compute in Hf.
    destruct (f _) as [pr|]; [|discriminate].
    injection Hf as <-.
    destruct Hspec as (u & owner & name & digits & Hu & Hurl & _ & Hnum & _).
    injection Hu as <-.
    apply url_match_exact in Hurl.
    assert (Hm : url_match
                   "https://github.com/acme/widgets/pull/9007199254740993"
                 = Some ("acme/widgets", "9007199254740993"))
      by (by vm_compute).
    rewrite Hm in Hurl. injection Hurl as _ <-.
    vm_compute in Hnum. discriminate.
Qed.

(** C7, amended.  For every panel document the result has, in order,
    one LinkedPR for each reference whose URL holds
    github.com/<owner>/<repo>/pull/<number>, read at the first place
    where the URL holds it and with the whole run of digits: [repo] is
    the pair owner/repo, [number] the decimal id as a double (the id
    itself below 2^53) and [state] the status lowercased, or unknown
    when the status is absent or empty; a reference with no URL or
    another URL gives nothing.  No other list meets this description.
    The URL
    https://github.com/acme/widgets/pull/42 with the status OPEN gives
    repo acme/widgets, number 42, state open. *)
Theorem linked_prs_resolved {cm : CaseMapping} :
  (forall data prs,
     resolves_with number_amended state_amended data prs
     <-> prs = collect data)
  /\ (forall digits, decimal digits < 2 ^ 53 ->
        number_amended digits = Num (decimal digits))
  /\ collect (mkPanelDoc (Some [mkDetail (Some
       [mkPullRequestRef (Some "https://github.com/acme/widgets/pull/42")
          (Some "OPEN")])]))
     = [mkLinkedPR "acme/widgets" 42 "open"].
Proof.
  split; [|split].
  - intros data prs. split.
    + intros (f & -> & Hf). rewrite collect_omap.
      apply omap_pointwise, emit_unique, Hf.
    + intros ->. exists emit. split.
      * apply collect_omap.
      * apply emit_spec.
  - intros digits. apply to_double_exact.
  - rewrite collect_omap.
    change (references _)
      with [mkPullRequestRef (Some "https://github.com/acme/widgets/pull/42")
              (Some "OPEN")].
    cbn [omap list_omap]. unfold emit. cbn [pr_url pr_status].
    replace (Some "https://github.com/acme/widgets/pull/42" ≫= url_match)
      with (Some ("acme/widgets", "42")) by (by vm_compute).
    cbn [fmap option_fmap option_map].
    rewrite (lowers_ascii "OPEN") by reflexivity. by vm_compute.
Qed.

Lemma linked_prs_resolved_witness :
  number_amended "42" = Num (decimal "42").
Proof.
  apply (proj1 (proj2 (linked_prs_resolved (cm := Scenario.ascii_only)))).
  vm_compute. reflexivity.
Defined.

(** After a successful panel fetch [fetchLinkedPRs] returns what the
    loops collect. *)
Lemma fetchLinkedPRs_collects {cm : CaseMapping} up issueId r data :
  dev_status up issueId = Ok r -> ok r = true -> json r = Ok data ->
  fetchLinkedPRs up issueId = Ok (collect data).
Proof.
  intros Hr Hok Hjson. unfold fetchLinkedPRs. by run_with_hyps.
Qed.

End Pattern.

(** ** Properties of the Jira actions *)

Section Sprints.
Import Jira Spec Scenario.

Lemma ceil_div_is_ceiling a b : 0 < b -> is_ceiling (ceil_div a b) a b.
Proof.
  intros Hb. unfold is_ceiling, ceil_div.
  pose proof (Z.div_mod (- a) b ltac:(lia)) as Hdm.
  pose proof (Z.mod_pos_bound (- a) b Hb) as Hm.
  nia.
Qed.

Lemma is_ceiling_unique q q' a b :
  0 < b -> is_ceiling q a b -> is_ceiling q' a b -> q = q'.
Proof. unfold is_ceiling. intros Hb H1 H2. nia. Qed.

(** What an [Active] report of [getSprint] carries as [daysRemaining]:
    the days that remain for the first active sprint of the first
    board. *)
Lemma getSprint_daysRemaining up projectKey now name goal days issues :
  getSprint up projectKey now = Ok (Active name goal days issues) ->
  exists b sprint r doc rest,
    found_board up projectKey b
    /\ active_sprints up (board_id b) = Ok r /\ json r = Ok doc
    /\ sprint_values doc = Some (sprint :: rest)
    /\ days = days_remaining (sprint_endDate sprint) now.
Proof.
  unfold getSprint.
  destruct (board up projectKey) as [rb|] eqn:Hb; simpl; [|discriminate].
  destruct (ok rb) eqn:Hokb; simpl; [|discriminate].
  destruct (json rb) as [boards|] eqn:Hjb; simpl; [|discriminate].
  destruct (board_values boards) as [[|b rest]|] eqn:Hvals; simpl;
    try discriminate.
  destruct (active_sprints up (board_id b)) as [rs|] eqn:Hs; simpl;
    [|discriminate].
  destruct (ok rs) eqn:Hoks; simpl; [|discriminate].
  destruct (json rs) as [sprints|] eqn:Hjs; simpl; [|discriminate].
  destruct (sprint_values sprints) as [[|sprint rest']|] eqn:Hsv; simpl;
    try discriminate.
  destruct (sprint_issues up (sprint_id sprint)) as [ri|]; simpl;
    [|discriminate].
  destruct (json ri) as [issuesData|]; simpl; [|discriminate].
  intros [= <- <- <- <-].
  exists b, sprint, rs, sprints, rest'. repeat split; try done.
  by exists rb, boards, rest.
Qed.

(** The response of the sprint-issues fetch is read whatever its [ok]
    flag: with a first board, a first active sprint and a body that
    parses, [getSprint] returns the [Active] report. *)
Lemma getSprint_reads_issues_unchecked up projectKey now b r doc sprint rest
    ri data :
  found_board up projectKey b ->
  active_sprints up (board_id b) = Ok r -> ok r = true -> json r = Ok doc ->
  sprint_values doc = Some (sprint :: rest) ->
  sprint_issues up (sprint_id sprint) = Ok ri -> json ri = Ok data ->
  getSprint up projectKey now
  = Ok (Active (sprint_name sprint) (or_null (sprint_goal sprint))
          (days_remaining (sprint_endDate sprint) now)
          (List.map project_issue (or_empty (issues data)))).
Proof.
  intros (rb & boards & others & Hb & Hokb & Hjb & Hvals)
         Hs Hoks Hjs Hsv Hi Hji.
  unfold getSprint. by run_with_hyps.
Qed.

(** A sprint query that gets to its report gives the name, the goal
    and the issues of the sprint and the days that remain until its end
    date. *)
Lemma getSprint_reports up projectKey now sprint data :
  reaches_sprint up projectKey sprint data ->
  getSprint up projectKey now
  = Ok (Active (sprint_name sprint) (or_null (sprint_goal sprint))
          (days_remaining (sprint_endDate sprint) now)
          (List.map project_issue (or_empty (issues data)))).
Proof.
  intros (b & r & doc & rest & ri
          & (rb & boards & others & Hb & Hokb & Hjb & Hvals)
          & Hs & Hoks & Hjs & Hsv & Hi & Hji).
  unfold getSprint. by run_with_hyps.
Qed.





(** C6. When no board exists for the project (the board response is
    not a success, or the list of boards is empty), [getSprint] throws
    the error that names the project; when the first board has no active
    sprint, it returns name null, message No active sprint and no
    issues. *)
Theorem getSprint_board_and_sprint up projectKey now :
  (no_board up projectKey ->
   getSprint up projectKey now
   = Throw (Error ("No board found for project: " +:+ projectKey)))
  /\ (forall b, found_board up projectKey b ->
        without_active_sprint up b ->
        getSprint up projectKey now = Ok (Idle None "No active sprint" [])).
Proof.
  unfold getSprint. split.
  - intros (r & -> & [Hok | (doc & Hjson & Hvals)]); simpl.
    + by rewrite Hok.
    + destruct (ok r); simpl; [|done]. rewrite Hjson. simpl.
      destruct (board_values doc) as [[|b rest]|]; simpl; try done.
  - intros b (r & doc & rest & Hb & Hok & Hjson & Hvals)
             (rs & docs & Hs & Hoks & Hjs & Hsv).
    run_with_hyps.
    destruct (sprint_values docs) as [[|sprint rest']|]; simpl; try done.
Qed.

Lemma getSprint_board_and_sprint_witness :
  getSprint project_without_board "OPS" 0
  = Throw (Error "No board found for project: OPS")
  /\ getSprint board_without_sprint "OPS" 0
     = Ok (Idle None "No active sprint" []).
Proof.
  split.
  - apply (proj1 (getSprint_board_and_sprint project_without_board "OPS" 0)).
    eexists. split; [reflexivity|]. right. eexists. split; reflexivity.
  - apply (proj2 (getSprint_board_and_sprint board_without_sprint "OPS" 0)
             (mkBoard 7)).
    + do 3 eexists. repeat split; reflexivity.
    + do 2 eexists. repeat split; reflexivity.
Defined.

End Sprints.

Section Issues.
Import Jira Spec Scenario.

(** The resolver never throws. *)
Lemma fetchLinkedPRs_total {cm : CaseMapping} up issueId :
  exists prs, fetchLinkedPRs up issueId = Ok prs.
Proof.
  unfold fetchLinkedPRs.
  destruct (dev_status up issueId) as [r|]; simpl; [|by eexists].
  destruct (ok r); simpl; [|by eexists].
  destruct (json r); simpl; by eexists.
Qed.

(** C8. When the panel fetch fails (a response that is not a success,
    or a thrown transport fault), [fetchLinkedPRs] returns the empty
    list, and a [getIssue] whose issue fetch succeeded returns the issue
    with no linked PR. *)
Theorem fetchLinkedPRs_fail_soft {cm : CaseMapping} up :
  (forall issueId, panel_fetch_fails up issueId ->
     fetchLinkedPRs up issueId = Ok [])
  /\ (forall issueKey r doc,
        issue up issueKey = Ok r -> ok r = true -> json r = Ok doc ->
        panel_fetch_fails up (issue_id doc) ->
        getIssue up issueKey = Ok (mkIssue (project_issue doc) [])).
Proof.
  assert (Hsoft : forall issueId, panel_fetch_fails up issueId ->
                    fetchLinkedPRs up issueId = Ok []).
  { intros issueId [[e He] | (r & Hr & Hok)]; unfold fetchLinkedPRs.
    - by rewrite He.
    - rewrite Hr. simpl. by rewrite Hok. }
  split; [done|].
  intros issueKey r doc Hr Hok Hjson Hfail. unfold getIssue.
  run_with_hyps. by rewrite (Hsoft _ Hfail).
Qed.

Lemma fetchLinkedPRs_fail_soft_witness :
  fetchLinkedPRs (cm := ascii_only) panel_unavailable "10001" = Ok []
  /\ getIssue (cm := ascii_only) panel_unavailable "OPS-1"
     = Ok (mkIssue (mkIssueSummary "OPS-1" "Rotate keys" (Some "To Do") None)
             []).
Proof.
  split.
  - apply (proj1 (fetchLinkedPRs_fail_soft (cm := ascii_only) panel_unavailable) "10001").
    right. eexists. split; reflexivity.
  - apply (proj2 (fetchLinkedPRs_fail_soft (cm := ascii_only) panel_unavailable) "OPS-1"
             (mkResponse true 200 "{}"
                (Ok (mkIssueDoc "10001" "OPS-1"
                       (mkIssueFields "Rotate keys" (Some "To Do") None))))
             (mkIssueDoc "10001" "OPS-1"
                (mkIssueFields "Rotate keys" (Some "To Do") None)));
      try reflexivity.
    right. eexists. split; reflexivity.
Defined.

(** C10. Whatever the status and the body of a response of the issue
    fetch that is not a success, [getIssue] throws the error with the
    message Issue not found: <issueKey>, which is built from the issue
    key alone. *)
Theorem getIssue_not_found {cm : CaseMapping} up issueKey r :
  issue up issueKey = Ok r -> ok r = false ->
  getIssue up issueKey = Throw (Error ("Issue not found: " +:+ issueKey)).
Proof.
  intros Hr Hok. unfold getIssue. by run_with_hyps.
Qed.

Lemma getIssue_not_found_witness :
  getIssue (cm := ascii_only) tracker_down "OPS-1" = Throw (Error "Issue not found: OPS-1").
Proof.
  apply (getIssue_not_found (cm := ascii_only) tracker_down "OPS-1"
           (mkResponse false 500 "Internal Server Error"
              (Throw (Error "no JSON")))); reflexivity.
Defined.

End Issues.

(** ** Upstream responses that are not a success *)

Section Faults.
Import Spec Scenario.

(** [github] turns a response that is not a success into the error
    GitHub API error <status>: <body>. *)
Lemma github_rejects {A} up (request : Result (Response A)) r :
  token_configured up -> rejects request r ->
  GitHub.github up request = Throw (GitHub.api_error r).
Proof.
  unfold token_configured, GitHub.github, GitHub.getGitHubToken.
  intros Htoken [-> Hok].
  destruct (GitHub.GITHUB_TOKEN up) as [token|]; simpl in *; [|discriminate].
  rewrite Htoken. simpl. by rewrite Hok.
Qed.

Lemma api_error_surfaces {A} (r : Response A) :
  surfaces r (GitHub.api_error r).
Proof.
  exists "GitHub API error ", ": ", EmptyString.
  unfold GitHub.api_error. cbn [message].
  by rewrite string_app_nil_r.
Qed.

(** C2, as stated, fails for the sprint query: with one board and an
    active-sprints fetch that answers 500, [getSprint] does not throw. *)
Lemma sprint_fault_is_soft :
  ~ sprint_fault_is_fatal sprints_unavailable "OPS" 0.
Proof.
  intros H.
  destruct (H (Jira.mkBoard 7)
              (mkResponse false 500 "Internal Server Error"
                 (Throw (Error "no JSON"))))
    as (e & He & _).
  - do 3 eexists. repeat split; reflexivity.
  - reflexivity.
  - reflexivity.
  - vm_compute in He. discriminate.
Qed.

(** C2, amended.  A response [r] that is not a success aborts the query
    in these cases.  From a fetch of [github] (pull request, reviews,
    check runs, search) the error is GitHub API error <status>: <body>,
    which carries the status and the body; when both concurrent fetches
    of [getPRStatus] fail, the error is that of one of them.  From the
    issue fetch the error is Issue not found: <issueKey>, and from the
    board fetch No board found for project: <projectKey>.  A response of
    the active-sprints fetch that is not a success does not abort the
    query: [getSprint] returns name null, message No active sprint and
    no issues. *)
Theorem non_success_responses {cm : Js.CaseMapping} :
  (forall (up : GitHub.Upstream) repo number query
          (r1 : Response GitHub.PullDoc)
          (r2 : Response (list GitHub.ReviewDoc))
          (r3 : Response GitHub.CheckRunsDoc)
          (r4 : Response GitHub.SearchDoc),
     token_configured up ->
     (rejects (GitHub.pulls up repo number) r1 ->
      exists e, GitHub.getPRStatus up repo number = Throw e
        /\ (e = GitHub.api_error r1
            \/ GitHub.github up (GitHub.pull_reviews up repo number)
               = Throw e))
     /\ (rejects (GitHub.pull_reviews up repo number) r2 ->
         exists e, GitHub.getPRStatus up repo number = Throw e
           /\ (e = GitHub.api_error r2
               \/ GitHub.github up (GitHub.pulls up repo number) = Throw e))
     /\ (forall pr reviews,
           GitHub.github up (GitHub.pulls up repo number) = Ok pr ->
           GitHub.github up (GitHub.pull_reviews up repo number)
           = Ok reviews ->
           rejects (GitHub.commit_check_runs up repo (GitHub.pr_head_sha pr))
             r3 ->
           GitHub.getPRStatus up repo number
           = Throw (GitHub.api_error r3))
     /\ (rejects (GitHub.search_issues up ("is:pr " +:+ query)) r4 ->
         GitHub.searchPRs up query = Throw (GitHub.api_error r4))
     /\ surfaces r1 (GitHub.api_error r1)
     /\ surfaces r2 (GitHub.api_error r2)
     /\ surfaces r3 (GitHub.api_error r3)
     /\ surfaces r4 (GitHub.api_error r4))
  /\ (forall (up : Jira.Upstream) key now
             (r1 : Response Jira.IssueDoc) (r2 : Response Jira.BoardsDoc)
             (r3 : Response Jira.SprintsDoc),
        (rejects (Jira.issue up key) r1 ->
         Jira.getIssue up key = Throw (Error ("Issue not found: " +:+ key)))
        /\ (rejects (Jira.board up key) r2 ->
            Jira.getSprint up key now
            = Throw (Error ("No board found for project: " +:+ key)))
        /\ (forall b, found_board up key b ->
              rejects (Jira.active_sprints up (Jira.board_id b)) r3 ->
              Jira.getSprint up key now
              = Ok (Jira.Idle None "No active sprint" []))).
Proof.
  split.
  - intros up repo number query r1 r2 r3 r4 Htoken.
    repeat split; try apply api_error_surfaces.
    + intros Hr. unfold GitHub.getPRStatus.
      rewrite (github_rejects up _ r1 Htoken Hr).
      destruct (GitHub.github up (GitHub.pull_reviews up repo number))
        as [reviews|e2]; simpl.
      * eexists. split; [reflexivity|]. by left.
      * destruct (GitHub.pull_settles_first up).
        -- eexists. split; [reflexivity|]. by left.
        -- eexists. split; [reflexivity|]. by right.
    + intros Hr. unfold GitHub.getPRStatus.
      rewrite (github_rejects up _ r2 Htoken Hr).
      destruct (GitHub.github up (GitHub.pulls up repo number))
        as [pr|e1]; simpl.
      * eexists. split; [reflexivity|]. by left.
      * destruct (GitHub.pull_settles_first up).
        -- eexists. split; [reflexivity|]. by right.
        -- eexists. split; [reflexivity|]. by left.
    + intros pr reviews Hpr Hreviews Hr.
      unfold GitHub.getPRStatus, GitHub.fetchChecks.
      rewrite Hpr, Hreviews. simpl.
      by rewrite (github_rejects up _ r3 Htoken Hr).
    + intros Hr. unfold GitHub.searchPRs.
      by rewrite (github_rejects up _ r4 Htoken Hr).
  - intros up key now r1 r2 r3. repeat split.
    + intros [Hr Hok]. unfold Jira.getIssue. by run_with_hyps.
    + intros [Hr Hok]. unfold Jira.getSprint. by run_with_hyps.
    + intros b (r & doc & rest & Hb & Hokb & Hjson & Hvals) [Hr Hok].
      unfold Jira.getSprint. by run_with_hyps.
Qed.

Lemma non_success_responses_witness :
  (exists e, GitHub.getPRStatus pull_missing "acme/widgets" 42 = Throw e
     /\ (e = Error "GitHub API error 404: Not Found"
         \/ GitHub.github pull_missing
              (GitHub.pull_reviews pull_missing "acme/widgets" 42)
            = Throw e))
  /\ Jira.getSprint sprints_unavailable "OPS" 0
     = Ok (Jira.Idle None "No active sprint" []).
Proof.
  split.
  - apply (proj1 (proj1 (non_success_responses (cm := ascii_only)) pull_missing "acme/widgets" 42
                    "q"
                    (mkResponse false 404 "Not Found"
                       (Throw (Error "no JSON")))
                    (mkResponse true 200 "[]" (Ok []))
                    (mkResponse true 200 "{}" (Throw (Error "unused")))
                    (mkResponse true 200 "{}" (Throw (Error "unused")))
                    eq_refl)).
    split; reflexivity.
  - apply (proj2 (proj2 (proj2 (non_success_responses (cm := ascii_only)) sprints_unavailable
                           "OPS" 0
                           (mkResponse true 200 "{}" (Throw (Error "unused")))
                           (mkResponse true 200 "{}" (Throw (Error "unused")))
                           (mkResponse false 500 "Internal Server Error"
                              (Throw (Error "no JSON")))))
             (Jira.mkBoard 7)).
    + do 3 eexists. repeat split; reflexivity.
    + split; reflexivity.
Defined.

End Faults.

(** ** Further properties of the GitHub actions *)

Section Token.
Import GitHub Spec Scenario.

Lemma getGitHubToken_unset up :
  ~ token_configured up -> getGitHubToken up = Throw not_configured.
Proof.
  unfold token_configured, getGitHubToken, truthy_field.
  destruct (GITHUB_TOKEN up) as [token|]; [|done].
  destruct (truthy token); [|done]. intros H. by destruct H.
Qed.

Lemma github_unset {A} up (request : Result (Response A)) :
  ~ token_configured up -> github up request = Throw not_configured.
Proof. intros H. unfold github. by rewrite (getGitHubToken_unset up H). Qed.

(** With no token in the store, or an empty one, [getPRStatus] and
    [searchPRs] throw the configuration error, whatever the upstream
    would answer. *)
Theorem token_missing_is_fatal up repo number query :
  ~ token_configured up ->
  getPRStatus up repo number = Throw not_configured
  /\ searchPRs up query = Throw not_configured.
Proof.
  intros H. unfold getPRStatus, searchPRs.
  rewrite !(github_unset up _ H). simpl.
  by destruct (pull_settles_first up).
Qed.

Lemma token_missing_is_fatal_witness :
  getPRStatus token_unset "acme/widgets" 42 = Throw not_configured
  /\ searchPRs token_unset "fix login" = Throw not_configured.
Proof.
  apply (token_missing_is_fatal token_unset "acme/widgets" 42 "fix login").
  unfold token_configured. simpl. discriminate.
Defined.

Lemma github_ok_iff {A} up (request : Result (Response A)) a :
  github up request = Ok a <-> token_configured up /\ fetched request a.
Proof.
  unfold github, getGitHubToken, token_configured, fetched, truthy_field.
  destruct (GITHUB_TOKEN up) as [token|]; simpl.
  - destruct (truthy token); simpl.
    + destruct request as [r|e]; simpl.
      * destruct (ok r) eqn:Hok; simpl.
        -- split.
           ++ intros Hj. split; [done|]. by exists r.
           ++ intros [_ (r' & [= <-] & _ & Hj)]. done.
        -- split; [done|]. intros [_ (r' & [= <-] & Hok' & _)]. congruence.
      * split; [done|]. intros [_ (r' & Hr & _)]. done.
    + split; [done|]. intros [H _]. done.
  - split; [done|]. intros [H _]. done.
Qed.

(** The reads of [user.login] succeed on the documents whose user is
    there, and only on them. *)
Lemma read_reviews_ok docs reviews :
  read_all read_review docs = Ok reviews <-> docs = List.map as_doc reviews.
Proof.
  split.
  - revert reviews. induction docs as [|[[login|] st d] docs IH];
      intros reviews H; simpl in H.
    + by injection H as <-.
    + change (read_review (mkReviewDoc (Some login) st d))
        with (Ok (mkReview login st d)) in H.
      simpl in H.
      destruct (read_all read_review docs) as [rs|e] eqn:Hrs; simpl in H;
        [|discriminate].
      injection H as <-. simpl. f_equal. by apply IH.
    + discriminate.
  - intros ->. induction reviews as [|[u st d] reviews IH]; [done|].
    cbn [List.map read_all]. by rewrite IH.
Qed.

Lemma read_items_ok docs items :
  read_all read_item docs = Ok items <-> docs = List.map as_item_doc items.
Proof.
  split.
  - revert items. induction docs as [|[n t [login|] u st] docs IH];
      intros items H; simpl in H.
    + by injection H as <-.
    + change (read_item (mkSearchItemDoc n t (Some login) u st))
        with (Ok (mkSearchItem n t login u st)) in H.
      simpl in H.
      destruct (read_all read_item docs) as [rs|e] eqn:Hrs; simpl in H;
        [|discriminate].
      injection H as <-. simpl. f_equal. by apply IH.
    + discriminate.
  - intros ->. induction items as [|[n t login u st] items IH]; [done|].
    cbn [List.map read_all]. by rewrite IH.
Qed.

(** The first null user throws, and nothing else does. *)
Lemma read_reviews_null docs :
  (exists d, d ∈ docs /\ doc_user_login d = None) ->
  read_all read_review docs = Throw null_user.
Proof.
  induction docs as [|[[login|] st d] docs IH]; intros (x & Hin & Hx).
  - by apply elem_of_nil in Hin.
  - apply elem_of_cons in Hin as [->|Hin]; [discriminate|].
    cbn [read_all]. by rewrite IH by (by exists x).
  - reflexivity.
Qed.

Lemma read_items_null docs :
  (exists d, d ∈ docs /\ raw_user_login d = None) ->
  read_all read_item docs = Throw null_user.
Proof.
  induction docs as [|[n t [login|] u st] docs IH]; intros (x & Hin & Hx).
  - by apply elem_of_nil in Hin.
  - apply elem_of_cons in Hin as [->|Hin]; [discriminate|].
    cbn [read_all]. by rewrite IH by (by exists x).
  - reflexivity.
Qed.

(** [getPRStatus] returns a status exactly when the token is configured,
    each of the three fetches (pull request, reviews, check runs of the
    head commit) gets a success response with a body that parses, and
    every review has a user; the status is the one assembled from these
    three documents.  When the three fetches succeed and one review has
    a null user, [getPRStatus] throws the error of reading [login] of
    null. *)
Theorem getPRStatus_ok_iff up repo number :
  (forall result,
     getPRStatus up repo number = Ok result
     <-> token_configured up
         /\ exists pr reviews runs,
              fetched (pulls up repo number) pr
              /\ fetched (pull_reviews up repo number)
                   (List.map as_doc reviews)
              /\ fetched (commit_check_runs up repo (pr_head_sha pr))
                   (mkCheckRunsDoc runs)
              /\ result = assemble pr reviews (rollup (or_empty runs)))
  /\ (forall pr docs runs,
        token_configured up ->
        fetched (pulls up repo number) pr ->
        fetched (pull_reviews up repo number) docs ->
        fetched (commit_check_runs up repo (pr_head_sha pr))
          (mkCheckRunsDoc runs) ->
        (exists d, d ∈ docs /\ doc_user_login d = None) ->
        getPRStatus up repo number = Throw null_user).
Proof.
  split.
  - intros result. split.
    + intros H.
      destruct (getPRStatus_assembles _ _ _ _ H)
        as (pr & docs & reviews & runs & Hpr & Hrev & Hread & Hruns & ->).
      apply read_reviews_ok in Hread as ->.
      apply github_ok_iff in Hpr as [Htoken Hpr].
      apply github_ok_iff in Hrev as [_ Hrev].
      apply github_ok_iff in Hruns as [_ Hruns].
      split; [done|]. by exists pr, reviews, runs.
    + intros [Htoken (pr & reviews & runs & Hpr & Hrev & Hruns & ->)].
      unfold getPRStatus, fetchChecks.
      rewrite (proj2 (github_ok_iff up _ pr) (conj Htoken Hpr)).
      rewrite (proj2 (github_ok_iff up _ _) (conj Htoken Hrev)). simpl.
      rewrite (proj2 (github_ok_iff up _ _) (conj Htoken Hruns)). simpl.
      by rewrite (proj2 (read_reviews_ok _ reviews) eq_refl).
  - intros pr docs runs Htoken Hpr Hrev Hruns Hnull.
    unfold getPRStatus, fetchChecks.
    rewrite (proj2 (github_ok_iff up _ pr) (conj Htoken Hpr)).
    rewrite (proj2 (github_ok_iff up _ _) (conj Htoken Hrev)). simpl.
    rewrite (proj2 (github_ok_iff up _ _) (conj Htoken Hruns)). simpl.
    by rewrite (read_reviews_null docs Hnull).
Qed.

Lemma getPRStatus_ok_iff_witness :
  getPRStatus review_by_ghost "acme/widgets" 42 = Throw null_user.
Proof.
  apply (proj2 (getPRStatus_ok_iff review_by_ghost "acme/widgets" 42)
           (mkPullDoc 42 "Fix login" "octocat" "open" false (Some true)
              (Some "clean") 10 2 1 "abc123")
           [mkReviewDoc None "APPROVED" (Instant 10)] None).
  - reflexivity.
  - eexists. repeat split; reflexivity.
  - eexists. repeat split; reflexivity.
  - eexists. repeat split; reflexivity.
  - eexists. split; [apply list_elem_of_here | reflexivity].
Defined.

End Token.

Section Rollup.
Import GitHub Spec.

Lemma success_is_no_failure c : is_success c = true -> is_failure c = false.
Proof. unfold is_failure. intros ->. by rewrite andb_false_r. Qed.

Lemma exclusive_counts (f g : CheckRun -> bool) runs :
  (forall c, f c = true -> g c = false) ->
  (length (List.filter f runs) + length (List.filter g runs)
   <= length runs)%nat.
Proof.
  intros Hfg. induction runs as [|c runs IH]; simpl; [lia|].
  destruct (f c) eqn:Hf.
  - rewrite (Hfg c Hf). simpl. lia.
  - destruct (g c); simpl; lia.
Qed.

Lemma filter_length_le {A} (f : A -> bool) (l : list A) :
  (length (List.filter f l) <= length l)%nat.
Proof.
  induction l as [|x l IH]; simpl; [lia|]. destruct (f x); simpl; lia.
Qed.

(** In every rollup [failedNames] has one name for each failed run,
    each of them the name of a run of the input that failed; no run is
    counted both as passed and as failed, so [passed + failed] is at
    most [total], and [pending] is at most [total]. *)
Theorem rollup_invariants runs :
  length (failedNames (rollup runs)) = failed (rollup runs)
  /\ (forall n, n ∈ failedNames (rollup runs) ->
        exists c, c ∈ runs /\ name c = n /\ has_failed c)
  /\ (passed (rollup runs) + failed (rollup runs) <= total (rollup runs))%nat
  /\ (pending (rollup runs) <= total (rollup runs))%nat.
Proof.
  unfold rollup. simpl. repeat split.
  - apply length_map.
  - intros n Hn. apply list_elem_of_In, in_map_iff in Hn as (c & <- & Hc).
    apply filter_In in Hc as [Hin Hf]. exists c. repeat split.
    + by apply list_elem_of_In.
    + by apply is_failure_iff.
  - apply exclusive_counts, success_is_no_failure.
  - apply filter_length_le.
Qed.

Lemma rollup_invariants_witness :
  exists c, c ∈ [mkCheckRun "build" "completed" (Some "success");
                 mkCheckRun "lint" "completed" (Some "failure")]
            /\ name c = "lint" /\ has_failed c.
Proof.
  apply (proj1 (proj2 (rollup_invariants
                         [mkCheckRun "build" "completed" (Some "success");
                          mkCheckRun "lint" "completed" (Some "failure")]))
           "lint").
  vm_compute. apply list_elem_of_here.
Defined.

(** The rollup of two lists of runs put together is the sum of their
    rollups: the counts add up and the failed names follow each
    other. *)
Theorem rollup_app runs1 runs2 :
  total (rollup (runs1 ++ runs2))
  = (total (rollup runs1) + total (rollup runs2))%nat
  /\ passed (rollup (runs1 ++ runs2))
     = (passed (rollup runs1) + passed (rollup runs2))%nat
  /\ failed (rollup (runs1 ++ runs2))
     = (failed (rollup runs1) + failed (rollup runs2))%nat
  /\ pending (rollup (runs1 ++ runs2))
     = (pending (rollup runs1) + pending (rollup runs2))%nat
  /\ failedNames (rollup (runs1 ++ runs2))
     = failedNames (rollup runs1) ++ failedNames (rollup runs2).
Proof.
  unfold rollup. simpl.
  rewrite !List.filter_app, !length_app, List.map_app. done.
Qed.

Lemma settled_once c :
  settled c ->
  (is_success c = true /\ is_failure c = false /\ is_pending c = false)
  \/ (is_success c = false /\ is_failure c = true /\ is_pending c = false)
  \/ (is_success c = false /\ is_failure c = false /\ is_pending c = true).
Proof.
  unfold is_failure, is_pending, is_success.
  intros [[Hs Ht]|[Hs Ht]]; rewrite Ht; simpl.
  - rewrite Hs. simpl.
    destruct (bool_decide (conclusion c = Some "success")); simpl; auto.
  - apply String.eqb_neq in Hs. rewrite Hs. simpl.
    case_bool_decide as He; [|auto].
    rewrite He in Ht. discriminate.
Qed.

(** When the status and the conclusion of every run agree (a completed
    run has a conclusion, a run that is not completed has none), each
    run is counted once: [total = passed + failed + pending]. *)
Theorem rollup_partition runs :
  Forall settled runs ->
  total (rollup runs)
  = (passed (rollup runs) + failed (rollup runs) + pending (rollup runs))%nat.
Proof.
  unfold rollup. simpl. induction 1 as [|c runs Hc _ IH]; simpl; [done|].
  destruct (settled_once c Hc)
    as [(-> & -> & ->)|[(-> & -> & ->)|(-> & -> & ->)]]; simpl; lia.
Qed.

Lemma rollup_partition_witness :
  total (rollup [mkCheckRun "build" "completed" (Some "success");
                 mkCheckRun "lint" "completed" (Some "failure");
                 mkCheckRun "deploy" "queued" None])
  = (passed (rollup [mkCheckRun "build" "completed" (Some "success");
                     mkCheckRun "lint" "completed" (Some "failure");
                     mkCheckRun "deploy" "queued" None])
     + failed (rollup [mkCheckRun "build" "completed" (Some "success");
                       mkCheckRun "lint" "completed" (Some "failure");
                       mkCheckRun "deploy" "queued" None])
     + pending (rollup [mkCheckRun "build" "completed" (Some "success");
                        mkCheckRun "lint" "completed" (Some "failure");
                        mkCheckRun "deploy" "queued" None]))%nat.
Proof.
  apply (rollup_partition
           [mkCheckRun "build" "completed" (Some "success");
            mkCheckRun "lint" "completed" (Some "failure");
            mkCheckRun "deploy" "queued" None]).
  constructor; [left; split; reflexivity|].
  constructor; [left; split; reflexivity|].
  constructor; [right; split; [discriminate|reflexivity]|].
  constructor.
Defined.

End Rollup.

Section Dedup.
Import GitHub Spec.

Lemma is_latest_member reviews user v :
  is_latest reviews user v ->
  exists r, r ∈ reviews /\ user_login r = user
            /\ v = mkVerdict (review_state r) (submitted_at r).
Proof.
  intros (before & r & after & -> & Hu & -> & _). exists r.
  repeat split; try done. apply elem_of_app. right. apply elem_of_cons.
  by left.
Qed.

(** Two ways to cut one list at an element: the same cut, or one of
    the two elements lies before the other. *)
Lemma cut_compare {A} (b1 b2 a1 a2 : list A) (x1 x2 : A) :
  b1 ++ x1 :: a1 = b2 ++ x2 :: a2 ->
  (b1 = b2 /\ x1 = x2 /\ a1 = a2) \/ x1 ∈ b2 \/ x2 ∈ b1.
Proof.
  revert b2. induction b1 as [|y b1 IH]; intros [|z b2]; simpl.
  - intros [= -> ->]. by left.
  - intros [= -> _]. right. left. apply elem_of_cons. by left.
  - intros [= -> _]. right. right. apply elem_of_cons. by left.
  - intros [= -> H]. destruct (IH _ H) as [(-> & -> & ->)|[Hin|Hin]].
    + by left.
    + right. left. apply elem_of_cons. by right.
    + right. right. apply elem_of_cons. by right.
Qed.

Lemma is_latest_unique reviews user v v' :
  is_latest reviews user v -> is_latest reviews user v' -> v = v'.
Proof.
  intros H H'.
  pose proof H as (b & r & a & Hl & Hu & Hv & Hb & Ha).
  pose proof H' as (b' & r' & a' & Hl' & Hu' & Hv' & Hb' & Ha').
  assert (Hr : r ∈ reviews).
  { rewrite Hl. apply elem_of_app. right. apply elem_of_cons. by left. }
  assert (Hr' : r' ∈ reviews).
  { rewrite Hl'. apply elem_of_app. right. apply elem_of_cons. by left. }
  pose proof (is_latest_bound _ _ _ r' H Hr' Hu') as Hle.
  pose proof (is_latest_bound _ _ _ r H' Hr Hu) as Hle'.
  rewrite Hv in Hle. rewrite Hv' in Hle'. simpl in Hle, Hle'.
  rewrite Hl in Hl'.
  destruct (cut_compare _ _ _ _ _ _ Hl') as [(_ & <- & _)|[Hin|Hin]].
  - congruence.
  - specialize (Hb' r Hin Hu). congruence.
  - specialize (Hb r' Hin Hu'). congruence.
Qed.

Lemma date_gt_invalid a : date_gt a InvalidDate = false.
Proof. by destruct a. Qed.

(** A user with no review has no entry. *)
Lemma reviewsByUser_absent reviews user :
  (forall r, r ∈ reviews -> user_login r <> user) ->
  reviewsByUser reviews !! user = None.
Proof.
  induction reviews as [|review reviews IH] using rev_ind; intros Hno.
  - done.
  - rewrite reviewsByUser_snoc. unfold record_review.
    assert (Hne : user_login review <> user).
    { apply Hno, elem_of_app. right. apply elem_of_cons. by left. }
    assert (Hrest : reviewsByUser reviews !! user = None).
    { apply IH. intros r Hr. apply Hno, elem_of_app. by left. }
    destruct (replaces _ _); [|done]. by rewrite own_set_ne.
Qed.

(** A stored verdict without a valid date is never replaced. *)
Lemma dateless_stays after m user st :
  m !! user = Some (mkVerdict st InvalidDate) ->
  fold_left record_review after m !! user
  = Some (mkVerdict st InvalidDate).
Proof.
  revert m. induction after as [|r after IH]; intros m Hm; [done|].
  simpl. apply IH. unfold record_review, get.
  destruct (decide (user_login r = user)) as [Heq|Hne].
  - rewrite Heq, Hm. simpl. by rewrite date_gt_invalid.
  - destruct (replaces _ _); [|done]. by rewrite own_set_ne.
Qed.

(** The mapping, login by login.  A login that [Object.prototype] has
    as a property is never stored.  Every other login whose reviews all
    carry a timestamp that parses holds the state and the date of its
    review with the strictly latest timestamp, the first one met among
    equal timestamps, and has no entry when it wrote no review.  A
    login whose first review carries no timestamp that parses holds
    that review, whatever follows. *)
Theorem reviewsByUser_characterised reviews user :
  (inherited user = true -> reviewsByUser reviews !! user = None)
  /\ (inherited user = false -> dated reviews user ->
      latest_of reviews (reviewsByUser reviews) user)
  /\ (forall before r after,
        inherited user = false ->
        reviews = before ++ r :: after ->
        user_login r = user ->
        (forall r', r' ∈ before -> user_login r' <> user) ->
        submitted_at r = InvalidDate ->
        reviewsByUser reviews !! user
        = Some (mkVerdict (review_state r) InvalidDate)).
Proof.
  split; [|split].
  - apply reviewsByUser_inherited.
  - apply reviewsByUser_latest.
  - intros before r after Hinh -> Hu Hfirst Hdate.
    unfold reviewsByUser. rewrite fold_left_app. simpl.
    fold (reviewsByUser before). apply dateless_stays.
    unfold record_review, get.
    rewrite Hu, (reviewsByUser_absent before user Hfirst), Hinh, Hdate.
    simpl. apply own_set_eq.
Qed.

Lemma reviewsByUser_characterised_witness :
  reviewsByUser [mkReview "a" "APPROVED" InvalidDate;
                 mkReview "a" "CHANGES_REQUESTED" 20] !! "a"
  = Some (mkVerdict "APPROVED" InvalidDate).
Proof.
  apply (proj2 (proj2 (reviewsByUser_characterised
                  [mkReview "a" "APPROVED" InvalidDate;
                   mkReview "a" "CHANGES_REQUESTED" 20] "a"))
           [] (mkReview "a" "APPROVED" InvalidDate)
           [mkReview "a" "CHANGES_REQUESTED" 20]).
  - reflexivity.
  - reflexivity.
  - reflexivity.
  - intros r' Hr'. by apply elem_of_nil in Hr'.
  - reflexivity.
Defined.

Lemma record_review_seen reviews r :
  r ∈ reviews ->
  record_review (reviewsByUser reviews) r = reviewsByUser reviews.
Proof.
  intros Hin. unfold record_review, get.
  pose proof (stored_bound reviews r Hin) as Hbound.
  destruct (reviewsByUser reviews !! user_login r) as [v|].
  - simpl. by rewrite Hbound.
  - by rewrite Hbound.
Qed.

(** Reviews that are delivered a second time change nothing: after
    the reviews of a list, any of them again leaves the mapping as it
    is. *)
Theorem redelivery_is_idle reviews again :
  (forall r, r ∈ again -> r ∈ reviews) ->
  reviewsByUser (reviews ++ again) = reviewsByUser reviews.
Proof.
  intros Hsub. unfold reviewsByUser at 1. rewrite fold_left_app.
  fold (reviewsByUser reviews).
  induction again as [|r again IH]; simpl; [done|].
  rewrite record_review_seen.
  - apply IH. intros r' Hr'. apply Hsub, elem_of_cons. by right.
  - apply Hsub, elem_of_cons. by left.
Qed.

Lemma redelivery_is_idle_witness :
  reviewsByUser ([mkReview "a" "APPROVED" 10;
                  mkReview "a" "CHANGES_REQUESTED" 20]
                 ++ [mkReview "a" "APPROVED" 10])
  = reviewsByUser [mkReview "a" "APPROVED" 10;
                   mkReview "a" "CHANGES_REQUESTED" 20].
Proof.
  apply (redelivery_is_idle
           [mkReview "a" "APPROVED" 10; mkReview "a" "CHANGES_REQUESTED" 20]
           [mkReview "a" "APPROVED" 10]).
  intros r Hr. apply list_elem_of_singleton in Hr. rewrite Hr.
  apply elem_of_cons. by left.
Defined.

Lemma latest_of_perm reviews reviews' user v v' :
  reviews ≡ₚ reviews' -> distinct_timestamps reviews ->
  dated reviews user ->
  is_latest reviews user v -> is_latest reviews' user v' -> v = v'.
Proof.
  intros Hperm Hdistinct Hdated H H'.
  destruct (is_latest_member _ _ _ H) as (r & Hr & Hu & ->).
  destruct (is_latest_member _ _ _ H') as (r' & Hr' & Hu' & ->).
  assert (Hr2 : r ∈ reviews') by by rewrite <- Hperm.
  assert (Hr'2 : r' ∈ reviews) by by rewrite Hperm.
  pose proof (is_latest_bound _ _ _ r' H Hr'2 Hu') as Hle.
  pose proof (is_latest_bound _ _ _ r H' Hr2 Hu) as Hle'.
  simpl in Hle, Hle'.
  pose proof (Hdated r Hr Hu) as Hd. pose proof (Hdated r' Hr'2 Hu') as Hd'.
  assert (r = r') as ->; [|done].
  apply Hdistinct; try done; [congruence|].
  destruct (submitted_at r) as [t|], (submitted_at r') as [t'|]; try done.
  simpl in Hle, Hle'. f_equal. lia.
Qed.

Lemma selected_NoDup (keep : string * Verdict -> bool)
    (m : list (string * Verdict)) :
  NoDup m.*1 -> NoDup (List.map fst (List.filter keep (entries m))).
Proof.
  intros Hm. assert (Hnd : NoDup (entries m).*1) by by rewrite entries_perm.
  induction (entries m) as [|[user v] l IH]; simpl.
  - constructor.
  - apply NoDup_cons in Hnd as [Hnotin Hnd]. simpl in Hnotin.
    destruct (keep (user, v)); simpl; [|by apply IH].
    constructor; [|by apply IH]. intros Hin. apply Hnotin.
    apply list_elem_of_In, in_map_iff in Hin as ([u w] & Hu & Hw).
    simpl in Hu. subst u. apply filter_In in Hw as [Hw _].
    apply list_elem_of_fmap. exists (user, w). split; [done|].
    by apply list_elem_of_In.
Qed.

Lemma lookup_perm reviews reviews' user :
  reviews ≡ₚ reviews' -> distinct_timestamps reviews ->
  dated reviews user ->
  reviewsByUser reviews !! user = reviewsByUser reviews' !! user.
Proof.
  intros Hperm Hdistinct Hdated.
  destruct (inherited user) eqn:Hinh.
  { by rewrite !reviewsByUser_inherited. }
  assert (Hdated' : dated reviews' user).
  { intros r Hr. apply Hdated. by rewrite Hperm. }
  pose proof (reviewsByUser_latest reviews user Hinh Hdated) as H.
  pose proof (reviewsByUser_latest reviews' user Hinh Hdated') as H'.
  unfold latest_of in H, H'.
  destruct (reviewsByUser reviews !! user) as [v|] eqn:Hv;
    destruct (reviewsByUser reviews' !! user) as [v'|] eqn:Hv'.
  - f_equal. by apply (latest_of_perm reviews reviews' user).
  - destruct (is_latest_member _ _ _ H) as (r & Hr & Hu & _).
    destruct (H' r); [by rewrite <- Hperm|done].
  - destruct (is_latest_member _ _ _ H') as (r & Hr & Hu & _).
    destruct (H r); [by rewrite Hperm|done].
  - done.
Qed.

(** When every review carries a timestamp that parses and no two
    reviews of one user carry the same timestamp, the order in which
    the reviews arrive matters only for the order of the result: a
    list and any reordering of it store the same verdict under every
    login, and list the same users, in some order, in [approved] and
    in [changesRequested]. *)
Theorem order_is_immaterial reviews reviews' :
  reviews ≡ₚ reviews' -> distinct_timestamps reviews ->
  (forall user, dated reviews user) ->
  (forall user,
     reviewsByUser reviews !! user = reviewsByUser reviews' !! user)
  /\ (forall pr checks,
        approved (GitHub.reviews (assemble pr reviews checks))
        ≡ₚ approved (GitHub.reviews (assemble pr reviews' checks))
        /\ changesRequested (GitHub.reviews (assemble pr reviews checks))
           ≡ₚ changesRequested
                (GitHub.reviews (assemble pr reviews' checks))).
Proof.
  intros Hperm Hdistinct Hdated.
  assert (Hsame : forall user,
            reviewsByUser reviews !! user = reviewsByUser reviews' !! user).
  { intros user. by apply lookup_perm. }
  split; [done|]. intros pr checks. split.
  - apply NoDup_Permutation.
    + unfold assemble, partition_reviews. rewrite fold_classify. simpl.
      apply selected_NoDup, reviewsByUser_NoDup.
    + unfold assemble, partition_reviews. rewrite fold_classify. simpl.
      apply selected_NoDup, reviewsByUser_NoDup.
    + intros user. rewrite !approved_iff. by rewrite Hsame.
  - apply NoDup_Permutation.
    + unfold assemble, partition_reviews. rewrite fold_classify. simpl.
      apply selected_NoDup, reviewsByUser_NoDup.
    + unfold assemble, partition_reviews. rewrite fold_classify. simpl.
      apply selected_NoDup, reviewsByUser_NoDup.
    + intros user. rewrite !changesRequested_iff. by rewrite Hsame.
Qed.

Lemma order_is_immaterial_witness :
  (forall user,
     reviewsByUser [mkReview "a" "APPROVED" 10;
                    mkReview "a" "CHANGES_REQUESTED" 20] !! user
     = reviewsByUser [mkReview "a" "CHANGES_REQUESTED" 20;
                      mkReview "a" "APPROVED" 10] !! user)
  /\ (forall pr checks,
        approved (GitHub.reviews (assemble pr
          [mkReview "a" "APPROVED" 10; mkReview "a" "CHANGES_REQUESTED" 20]
          checks))
        ≡ₚ approved (GitHub.reviews (assemble pr
             [mkReview "a" "CHANGES_REQUESTED" 20; mkReview "a" "APPROVED" 10]
             checks))
        /\ changesRequested (GitHub.reviews (assemble pr
             [mkReview "a" "APPROVED" 10; mkReview "a" "CHANGES_REQUESTED" 20]
             checks))
           ≡ₚ changesRequested (GitHub.reviews (assemble pr
                [mkReview "a" "CHANGES_REQUESTED" 20;
                 mkReview "a" "APPROVED" 10]
                checks))).
Proof.
  apply (order_is_immaterial
           [mkReview "a" "APPROVED" 10; mkReview "a" "CHANGES_REQUESTED" 20]
           [mkReview "a" "CHANGES_REQUESTED" 20; mkReview "a" "APPROVED" 10]).
  - apply perm_swap.
  - intros r1 r2 H1 H2 _ Hdate.
    apply elem_of_cons in H1 as [->|H1];
      [|apply list_elem_of_singleton in H1 as ->];
      (apply elem_of_cons in H2 as [->|H2];
       [|apply list_elem_of_singleton in H2 as ->]);
      try reflexivity; simpl in Hdate; discriminate.
  - intros user r Hr _.
    apply elem_of_cons in Hr as [->|Hr];
      [|apply list_elem_of_singleton in Hr as ->]; simpl; discriminate.
Defined.

(** No reviewer is listed twice: [approved] and [changesRequested]
    have no duplicates. *)
Theorem review_lists_NoDup pr reviews checks :
  NoDup (approved (GitHub.reviews (assemble pr reviews checks)))
  /\ NoDup (changesRequested (GitHub.reviews (assemble pr reviews checks))).
Proof.
  unfold assemble, partition_reviews. rewrite fold_classify. simpl.
  split; apply selected_NoDup, reviewsByUser_NoDup.
Qed.

(** For a login that is not a property of [Object.prototype] and whose
    reviews all carry a timestamp that parses: the user is in [approved]
    exactly when the latest of their reviews is in the state APPROVED,
    and in [changesRequested] exactly when it is in the state
    CHANGES_REQUESTED. *)
Theorem lists_follow_latest_review pr reviews checks user :
  inherited user = false -> dated reviews user ->
  (user ∈ approved (GitHub.reviews (assemble pr reviews checks))
   <-> exists v, is_latest reviews user v /\ v_state v = "APPROVED")
  /\ (user ∈ changesRequested (GitHub.reviews (assemble pr reviews checks))
      <-> exists v, is_latest reviews user v
                    /\ v_state v = "CHANGES_REQUESTED").
Proof.
  intros Hinh Hdated. rewrite approved_iff, changesRequested_iff.
  pose proof (reviewsByUser_latest reviews user Hinh Hdated) as Hlatest.
  unfold latest_of in Hlatest.
  split; split.
  - intros (v & Hv & Hs). rewrite Hv in Hlatest. by exists v.
  - intros (v & Hv & Hs). destruct (reviewsByUser reviews !! user) as [w|].
    + exists w. split; [done|].
      by rewrite (is_latest_unique _ _ _ _ Hlatest Hv).
    + destruct (is_latest_member _ _ _ Hv) as (r & Hr & Hu & _).
      by destruct (Hlatest r Hr).
  - intros (v & Hv & Hs). rewrite Hv in Hlatest. by exists v.
  - intros (v & Hv & Hs). destruct (reviewsByUser reviews !! user) as [w|].
    + exists w. split; [done|].
      by rewrite (is_latest_unique _ _ _ _ Hlatest Hv).
    + destruct (is_latest_member _ _ _ Hv) as (r & Hr & Hu & _).
      by destruct (Hlatest r Hr).
Qed.

Lemma lists_follow_latest_review_witness :
  "a" ∈ changesRequested (GitHub.reviews (assemble
          (mkPullDoc 7 "t" "x" "open" false None None 1 1 1 "sha")
          [mkReview "a" "APPROVED" 10; mkReview "a" "CHANGES_REQUESTED" 20]
          (rollup []))).
Proof.
  apply (proj2 (lists_follow_latest_review
                  (mkPullDoc 7 "t" "x" "open" false None None 1 1 1 "sha")
                  [mkReview "a" "APPROVED" 10;
                   mkReview "a" "CHANGES_REQUESTED" 20]
                  (rollup []) "a" eq_refl
                  ltac:(intros r Hr _;
                        apply elem_of_cons in Hr as [->|Hr];
                        [|apply list_elem_of_singleton in Hr as ->];
                        simpl; discriminate))).
  exists (mkVerdict "CHANGES_REQUESTED" 20). split; [|reflexivity].
  exists [mkReview "a" "APPROVED" 10],
         (mkReview "a" "CHANGES_REQUESTED" 20), [].
  split; [reflexivity|]. split; [reflexivity|]. split; [reflexivity|].
  split.
  - intros r' Hr' _. apply list_elem_of_singleton in Hr'. rewrite Hr'.
    reflexivity.
  - intros r' Hr'. by apply elem_of_nil in Hr'.
Defined.

End Dedup.
(** ** Further properties of the Jira actions *)

Section Days.
Import Jira Spec Scenario.

Lemma zero_days_iff_due endDate now :
  days_remaining (Some (Instant endDate)) now = Some (Num 0)
  <-> endDate <= now.
Proof.
  unfold days_remaining.
  pose proof (ceil_div_is_ceiling (endDate - now) day eq_refl) as Hq.
  unfold is_ceiling, day in *. split.
  - intros [= H]. nia.
  - intros H. do 2 f_equal. nia.
Qed.

(** [daysRemaining] is 0 exactly when the end date is not after the
    current instant, in the computation and in the report of every
    sprint query that gets to its report. *)
Theorem days_remaining_zero_iff endDate now :
  (days_remaining (Some (Instant endDate)) now = Some (Num 0)
   <-> endDate <= now)
  /\ (forall up projectKey sprint data,
        reaches_sprint up projectKey sprint data ->
        sprint_endDate sprint = Some (Instant endDate) ->
        (getSprint up projectKey now
         = Ok (Active (sprint_name sprint) (or_null (sprint_goal sprint))
                 (Some (Num 0))
                 (List.map project_issue (or_empty (issues data))))
         <-> endDate <= now)).
Proof.
  split; [apply zero_days_iff_due|].
  intros up projectKey sprint data Hreach Hend.
  rewrite (getSprint_reports up projectKey now sprint data Hreach), Hend.
  split; intros H.
  - apply (zero_days_iff_due endDate now). congruence.
  - apply (zero_days_iff_due endDate now) in H. by rewrite H.
Qed.

Lemma days_grow_with_end_date endDate endDate' now now' :
  endDate <= endDate' -> now' <= now ->
  exists d d',
    days_remaining (Some (Instant endDate)) now = Some (Num d)
    /\ days_remaining (Some (Instant endDate')) now' = Some (Num d')
    /\ d <= d'
    /\ (now < endDate ->
        days_remaining (Some (Instant (endDate + day))) now
        = Some (Num (d + 1))).
Proof.
  intros He Hn. unfold days_remaining. do 2 eexists.
  split; [reflexivity|]. split; [reflexivity|].
  pose proof (ceil_div_is_ceiling (endDate - now) day eq_refl) as Hq.
  pose proof (ceil_div_is_ceiling (endDate' - now') day eq_refl) as Hq'.
  pose proof (ceil_div_is_ceiling (endDate + day - now) day eq_refl) as Hq''.
  unfold is_ceiling, day in *. split; [nia|].
  intros Hfuture. do 2 f_equal. nia.
Qed.

(** A later end date or an earlier current instant never gives fewer
    days, and for an end date after the current instant one more day
    until the end is one more day remaining; so for two sprint queries
    that get to their reports, the one with the later end date, asked
    no later, reports no fewer days. *)
Theorem days_remaining_monotone endDate endDate' now now' :
  endDate <= endDate' -> now' <= now ->
  exists d d',
    days_remaining (Some (Instant endDate)) now = Some (Num d)
    /\ days_remaining (Some (Instant endDate')) now' = Some (Num d')
    /\ d <= d'
    /\ (now < endDate ->
        days_remaining (Some (Instant (endDate + day))) now
        = Some (Num (d + 1)))
    /\ (forall up projectKey sprint data up' projectKey' sprint' data',
          reaches_sprint up projectKey sprint data ->
          reaches_sprint up' projectKey' sprint' data' ->
          sprint_endDate sprint = Some (Instant endDate) ->
          sprint_endDate sprint' = Some (Instant endDate') ->
          getSprint up projectKey now
          = Ok (Active (sprint_name sprint) (or_null (sprint_goal sprint))
                  (Some (Num d))
                  (List.map project_issue (or_empty (issues data))))
          /\ getSprint up' projectKey' now'
             = Ok (Active (sprint_name sprint')
                     (or_null (sprint_goal sprint')) (Some (Num d'))
                     (List.map project_issue (or_empty (issues data'))))).
Proof.
  intros He Hn.
  destruct (days_grow_with_end_date endDate endDate' now now' He Hn)
    as (d & d' & Hd & Hd' & Hle & Hday).
  exists d, d'. split; [done|]. split; [done|]. split; [done|].
  split; [done|].
  intros up projectKey sprint data up' projectKey' sprint' data'
         Hreach Hreach' Hend Hend'.
  rewrite (getSprint_reports up projectKey now sprint data Hreach).
  rewrite (getSprint_reports up' projectKey' now' sprint' data' Hreach').
  by rewrite Hend, Hend', Hd, Hd'.
Qed.

Lemma days_remaining_monotone_witness :
  exists d d',
    days_remaining (Some (Instant 129600000)) 0 = Some (Num d)
    /\ days_remaining (Some (Instant 200000000)) 0 = Some (Num d')
    /\ d <= d'
    /\ (0 < 129600000 ->
        days_remaining (Some (Instant (129600000 + day))) 0
        = Some (Num (d + 1)))
    /\ (forall up projectKey sprint data up' projectKey' sprint' data',
          reaches_sprint up projectKey sprint data ->
          reaches_sprint up' projectKey' sprint' data' ->
          sprint_endDate sprint = Some (Instant 129600000) ->
          sprint_endDate sprint' = Some (Instant 200000000) ->
          getSprint up projectKey 0
          = Ok (Active (sprint_name sprint) (or_null (sprint_goal sprint))
                  (Some (Num d))
                  (List.map project_issue (or_empty (issues data))))
          /\ getSprint up' projectKey' 0
             = Ok (Active (sprint_name sprint')
                     (or_null (sprint_goal sprint')) (Some (Num d'))
                     (List.map project_issue (or_empty (issues data'))))).
Proof.
  apply (days_remaining_monotone 129600000 200000000 0 0); lia.
Defined.

Lemma days_remaining_zero_iff_witness :
  getSprint sprint_dated "OPS" 129600000
  = Ok (Active "Sprint 31" None (Some (Num 0)) []).
Proof.
  apply (proj2 (days_remaining_zero_iff 129600000 129600000)
           sprint_dated "OPS"
           (mkSprintDoc 31 "Sprint 31" None (Some (Instant 129600000)))
           (mkSprintIssuesDoc (Some []))).
  - exists (mkBoard 7). do 4 eexists.
    split; [do 3 eexists; repeat split; reflexivity|].
    repeat split; reflexivity.
  - reflexivity.
  - lia.
Defined.

End Days.
Section Numbers.
Import Jira Spec.

Local Arguments String.append !_ _ / : simpl nomatch.

Lemma string_app_assoc (a b c : string) : (a +:+ b) +:+ c = a +:+ b +:+ c.
Proof. induction a as [|x a IH]; simpl; [done|]. by rewrite IH. Qed.

Lemma all_chars_app p a b :
  all_chars p (a +:+ b) = all_chars p a && all_chars p b.
Proof.
  induction a as [|c a IH]; simpl; [done|]. by rewrite IH, andb_assoc.
Qed.

Lemma parse_digits_app acc a b :
  parse_digits acc (a +:+ b) = parse_digits (parse_digits acc a) b.
Proof. revert acc. induction a as [|c a IH]; intros acc; simpl; [done|]. apply IH. Qed.

Lemma string_length_snoc a c :
  String.length (a +:+ String c EmptyString) = S (String.length a).
Proof. induction a as [|x a IH]; simpl; [done|]. by rewrite IH. Qed.

Lemma pretty_N_char_digit m : is_digit (pretty_N_char m) = true.
Proof. unfold pretty_N_char. by repeat case_match. Qed.

Lemma pretty_N_char_value m :
  (m < 10)%N -> digit_value (pretty_N_char m) = Z.of_N m.
Proof.
  intros Hm.
  assert (m = 0 \/ m = 1 \/ m = 2 \/ m = 3 \/ m = 4 \/ m = 5 \/ m = 6
          \/ m = 7 \/ m = 8 \/ m = 9)%N as Hcases by lia.
  repeat (destruct Hcases as [->|Hcases]; [reflexivity|]).
  by rewrite Hcases.
Qed.

(** The digits that [pretty] writes in front of [s]: a run of decimal
    digits whose value is [x]. *)
Lemma pretty_N_go_digits x s :
  exists d,
    pretty_N_go x s = d +:+ s
    /\ all_chars is_digit d = true
    /\ ((0 < x)%N -> d <> EmptyString)
    /\ forall acc,
         parse_digits acc d
         = acc * 10 ^ Z.of_nat (String.length d) + Z.of_N x.
Proof.
  revert s. induction (N.lt_wf_0 x) as [x _ IH]. intros s.
  destruct (decide (0 < x)%N) as [Hpos|Hzero].
  - rewrite pretty_N_go_step by done.
    destruct (IH (x `div` 10)%N
                (N.div_lt x 10 Hpos eq_refl)
                (String (pretty_N_char (x `mod` 10)) s))
      as (d & Hd & Hdigits & _ & Hvalue).
    exists (d +:+ String (pretty_N_char (x `mod` 10)) EmptyString).
    repeat split.
    + rewrite Hd. by rewrite string_app_assoc.
    + rewrite all_chars_app, Hdigits. simpl.
      by rewrite pretty_N_char_digit.
    + intros _. by destruct d.
    + intros acc. rewrite parse_digits_app, Hvalue. simpl.
      rewrite pretty_N_char_value by (apply N.mod_lt; lia).
      rewrite string_length_snoc, Nat2Z.inj_succ, Z.pow_succ_r by lia.
      rewrite N2Z.inj_mod, N2Z.inj_div.
      pose proof (Z.div_mod (Z.of_N x) 10 ltac:(lia)). lia.
  - assert (x = 0%N) as -> by lia. exists EmptyString.
    rewrite pretty_N_go_0. repeat split; try done.
    intros acc. change (acc = acc * 1 + 0). lia.
Qed.

Lemma pretty_N_digits (n : N) :
  all_chars is_digit (pretty n) = true /\ pretty n <> EmptyString
  /\ parseInt (pretty n) = to_double (Z.of_N n).
Proof.
  unfold pretty, pretty_N. destruct (decide (n = 0%N)) as [->|Hn].
  - done.
  - destruct (pretty_N_go_digits n EmptyString)
      as (d & Hd & Hdigits & Hne & Hvalue).
    rewrite string_app_nil_r in Hd. rewrite Hd. repeat split.
    + done.
    + apply Hne. lia.
    + unfold parseInt. rewrite Hvalue. f_equal; lia.
Qed.

Lemma parse_digits_nonneg acc d :
  all_chars is_digit d = true -> 0 <= acc -> 0 <= parse_digits acc d.
Proof.
  revert acc. induction d as [|c d IH]; intros acc; simpl; [done|].
  intros [Hc Hd]%andb_true_iff Hacc. apply IH; [done|].
  unfold is_digit in Hc. apply andb_true_iff in Hc as [Hlo _].
  apply Nat.leb_le in Hlo. unfold digit_value. lia.
Qed.

(** The double of an integer that is not negative is not negative. *)
Lemma to_double_not_negative z : 0 <= z -> not_negative (to_double z).
Proof.
  intros Hz. unfold to_double. destruct (z <? 2 ^ 53); [done|].
  cbv zeta. destruct (2 ^ 1024 <=? _); [done|]. simpl.
  apply Z.shiftl_nonneg.
  pose proof (proj2 (Z.shiftr_nonneg z (Z.log2 z - 52)) Hz).
  destruct (_ || _); lia.
Qed.

Lemma state_amended_normal {cm : CaseMapping} status :
  state_amended status <> EmptyString
  /\ all_chars no_upper (state_amended status) = true.
Proof.
  unfold state_amended. destruct status as [s|]; [|done].
  destruct (decide (s = EmptyString)) as [->|Hne]; [done|]. split.
  - intros He. by apply (proj1 (lowers_empty s)) in He.
  - apply lowers_capitals.
Qed.

Lemma url_match_skip c s :
  c <> "g"%char -> url_match (String c s) = url_match s.
Proof.
  intros Hc. cbn [url_match]. unfold match_here at 1.
  cbn [strip_prefix]. destruct (Ascii.eqb_spec "g" c) as [<-|_]; done.
Qed.

Lemma url_match_here s captures :
  match_here s = Some captures -> url_match s = Some captures.
Proof. intros H. destruct s; cbn [url_match]; by rewrite H. Qed.

(** The captures of a string that reads as the pattern from its start
    to its end. *)
Lemma match_here_exact owner name digits :
  owner <> EmptyString -> all_chars not_slash owner = true ->
  name <> EmptyString -> all_chars not_slash name = true ->
  digits <> EmptyString -> all_chars is_digit digits = true ->
  match_here ("github.com/" +:+ owner +:+ "/" +:+ name +:+ "/pull/"
              +:+ digits)
  = Some (owner +:+ "/" +:+ name, digits).
Proof.
  intros Ho Hos Hn Hns Hd Hds. unfold match_here.
  rewrite strip_prefix_app.
  rewrite (span_app _ _ _ Hos).
  rewrite (span_stop not_slash "/"%char) by reflexivity. cbn [fst snd].
  rewrite string_app_nil_r.
  apply truthy_iff in Ho, Hn, Hd. rewrite Ho. cbn [negb].
  rewrite strip_prefix_app.
  rewrite (span_app _ _ _ Hns).
  rewrite (span_stop not_slash "/"%char) by reflexivity. cbn [fst snd].
  rewrite string_app_nil_r. rewrite Hn. cbn [negb].
  rewrite strip_prefix_app.
  rewrite <- (string_app_nil_r digits) at 1.
  rewrite (span_app _ _ _ Hds). cbn [span fst snd].
  rewrite string_app_nil_r, Hd. done.
Qed.

(** The address of a pull request resolves to that pull request: for
    an owner and a repository name that are not empty and have no
    slash, and any number [n], the reference with the URL
    https://github.com/<owner>/<name>/pull/<n> gives the LinkedPR with
    the repo owner/name and, as its number, the double nearest to [n],
    which is [n] itself below 2^53. *)
Theorem canonical_url_resolves {cm : CaseMapping} owner name n status :
  owner <> EmptyString -> all_chars not_slash owner = true ->
  name <> EmptyString -> all_chars not_slash name = true ->
  collect (mkPanelDoc (Some [mkDetail (Some
     [mkPullRequestRef (Some (canonical_url owner name n)) status])]))
  = [mkLinkedPR (owner +:+ "/" +:+ name) (to_double (Z.of_N n))
       (state_amended status)]
  /\ (Z.of_N n < 2 ^ 53 -> to_double (Z.of_N n) = Num (Z.of_N n)).
Proof.
  intros Ho Hos Hn Hns. split; [|apply to_double_exact].
  destruct (pretty_N_digits n) as (Hds & Hd & Hvalue).
  assert (Hm : url_match (canonical_url owner name n)
               = Some (owner +:+ "/" +:+ name, pretty n)).
  { unfold canonical_url.
    change ("https://github.com/" +:+ owner +:+ "/" +:+ name +:+ "/pull/"
            +:+ pretty n)
      with (String "h" (String "t" (String "t" (String "p" (String "s"
             (String ":" (String "/" (String "/"
               ("github.com/" +:+ owner +:+ "/" +:+ name +:+ "/pull/"
                +:+ pretty n))))))))).
    rewrite !url_match_skip by discriminate.
    by apply url_match_here, match_here_exact. }
  assert (He : emit (mkPullRequestRef (Some (canonical_url owner name n))
                       status)
               = Some (mkLinkedPR (owner +:+ "/" +:+ name)
                         (to_double (Z.of_N n)) (state_amended status))).
  { unfold emit. cbn [pr_url pr_status mbind option_bind].
    by rewrite Hm, Hvalue, state_amended_correct. }
  rewrite collect_omap.
  change (references _)
    with [mkPullRequestRef (Some (canonical_url owner name n)) status].
  cbn [omap list_omap]. by rewrite He.
Qed.

Lemma canonical_url_resolves_witness :
  collect (cm := Scenario.ascii_only) (mkPanelDoc (Some [mkDetail (Some
     [mkPullRequestRef (Some (canonical_url "acme" "widgets" 42))
        (Some "MERGED")])]))
  = [mkLinkedPR ("acme" +:+ "/" +:+ "widgets") (to_double (Z.of_N 42))
       (state_amended (cm := Scenario.ascii_only) (Some "MERGED"))]
  /\ (Z.of_N 42 < 2 ^ 53 -> to_double (Z.of_N 42) = Num (Z.of_N 42)).
Proof.
  apply (canonical_url_resolves (cm := Scenario.ascii_only)
           "acme" "widgets" 42 (Some "MERGED"));
    (discriminate || reflexivity).
Defined.

(** Every LinkedPR of a result is well formed: its number is not
    negative, its state is not empty and has no ASCII capital letter,
    and its repo is an owner and a name, not empty and without a slash,
    with one slash between them. *)
Theorem linked_prs_well_formed {cm : CaseMapping} data pr :
  pr ∈ collect data ->
  not_negative (number pr)
  /\ state pr <> EmptyString /\ all_chars no_upper (state pr) = true
  /\ exists owner name,
       repo pr = owner +:+ "/" +:+ name
       /\ owner <> EmptyString /\ all_chars not_slash owner = true
       /\ name <> EmptyString /\ all_chars not_slash name = true.
Proof.
  rewrite collect_omap. intros (ref & _ & Hemit)%list_elem_of_omap.
  pose proof (emit_spec ref) as Hspec. rewrite Hemit in Hspec.
  destruct Hspec as (u & owner & name & digits & _ & Hurl & Hrepo & Hnum
                     & Hstate).
  destruct Hurl as (pre & s & post & _ & Hreads & _).
  destruct Hreads as (_ & Ho & Hos & Hn & Hns & Hd & Hds).
  rewrite Hnum, Hstate. split; [|split; [|split]].
  - rewrite <- parseInt_decimal. unfold parseInt.
    by apply to_double_not_negative, parse_digits_nonneg.
  - apply state_amended_normal.
  - apply state_amended_normal.
  - by exists owner, name.
Qed.

Lemma linked_prs_well_formed_witness :
  not_negative (number (mkLinkedPR "acme/widgets" 42 "open"))
  /\ state (mkLinkedPR "acme/widgets" 42 "open") <> EmptyString
  /\ all_chars no_upper (state (mkLinkedPR "acme/widgets" 42 "open")) = true
  /\ exists owner name,
       repo (mkLinkedPR "acme/widgets" 42 "open") = owner +:+ "/" +:+ name
       /\ owner <> EmptyString /\ all_chars not_slash owner = true
       /\ name <> EmptyString /\ all_chars not_slash name = true.
Proof.
  apply (linked_prs_well_formed (cm := Scenario.ascii_only)
           (mkPanelDoc (Some [mkDetail (Some
              [mkPullRequestRef
                 (Some "https://github.com/acme/widgets/pull/42")
                 (Some "OPEN")])]))
           (mkLinkedPR "acme/widgets" 42 "open")).
  vm_compute. apply list_elem_of_here.
Defined.

(** The detail groups are resolved one after the other: the result for
    two lists of groups put together is the result for the first
    followed by the result for the second. *)
Theorem collect_app {cm : CaseMapping} details1 details2 :
  collect (mkPanelDoc (Some (details1 ++ details2)))
  = collect (mkPanelDoc (Some details1))
    ++ collect (mkPanelDoc (Some details2)).
Proof.
  rewrite !collect_omap. unfold references. cbn [or_empty detail].
  by rewrite bind_app, omap_app.
Qed.

End Numbers.

Section Lookups.
Import Jira Spec Scenario.

(** [fetchLinkedPRs] never throws, and what it returns is empty unless
    the panel fetch got a success response with a body that parses: a
    result that is not empty is what the loops collect from that
    body. *)
Theorem fetchLinkedPRs_result {cm : CaseMapping} up issueId :
  exists prs,
    fetchLinkedPRs up issueId = Ok prs
    /\ (prs = []
        \/ exists data, fetched (dev_status up issueId) data
                        /\ prs = collect data).
Proof.
  unfold fetchLinkedPRs, fetched.
  destruct (dev_status up issueId) as [r|e]; simpl; [|by eexists; eauto].
  destruct (ok r) eqn:Hok; simpl; [|by eexists; eauto].
  destruct (json r) as [data|e] eqn:Hjson; simpl; [|by eexists; eauto].
  eexists. split; [reflexivity|]. right. exists data. split; [|done].
  by exists r.
Qed.

(** Once the issue fetch got a success response with a body that
    parses, [getIssue] returns the issue, whatever happens to the panel
    fetch: key, summary, status name, assignee (null when absent or
    empty) and the linked PRs that [fetchLinkedPRs] returns. *)
Theorem getIssue_succeeds {cm : CaseMapping} up issueKey doc :
  fetched (issue up issueKey) doc ->
  exists prs,
    fetchLinkedPRs up (issue_id doc) = Ok prs
    /\ getIssue up issueKey
       = Ok (mkIssue
               (mkIssueSummary (issue_key doc)
                  (f_summary (issue_fields doc))
                  (f_status_name (issue_fields doc))
                  (or_null (f_assignee_displayName (issue_fields doc))))
               prs).
Proof.
  intros (r & Hr & Hok & Hjson).
  destruct (fetchLinkedPRs_total up (issue_id doc)) as [prs Hprs].
  exists prs. split; [done|]. unfold getIssue. by run_with_hyps.
Qed.

Lemma getIssue_succeeds_witness :
  exists prs,
    fetchLinkedPRs (cm := ascii_only) panel_unavailable "10001" = Ok prs
    /\ getIssue (cm := ascii_only) panel_unavailable "OPS-1"
       = Ok (mkIssue
               (mkIssueSummary "OPS-1" "Rotate keys" (Some "To Do")
                  (or_null None))
               prs).
Proof.
  apply (getIssue_succeeds (cm := ascii_only) panel_unavailable "OPS-1"
           (mkIssueDoc "10001" "OPS-1"
              (mkIssueFields "Rotate keys" (Some "To Do") None))).
  eexists. repeat split; reflexivity.
Defined.

(** [getIssue] throws only for the issue fetch itself: the fetch threw,
    or its response was not a success (the error is Issue not found),
    or its body did not parse.  The panel fetch never makes it throw. *)
Theorem getIssue_throws_for_issue_only {cm : CaseMapping} up issueKey e :
  getIssue up issueKey = Throw e ->
  issue up issueKey = Throw e
  \/ exists r, issue up issueKey = Ok r
       /\ ((ok r = false /\ e = Error ("Issue not found: " +:+ issueKey))
           \/ (ok r = true /\ json r = Throw e)).
Proof.
  unfold getIssue.
  destruct (issue up issueKey) as [r|e'] eqn:Hr; simpl.
  - destruct (ok r) eqn:Hok; simpl.
    + destruct (json r) as [doc|e'] eqn:Hjson; simpl.
      * destruct (fetchLinkedPRs_total up (issue_id doc)) as [prs ->].
        discriminate.
      * intros [= ->]. right. exists r. split; [done|]. by right.
    + intros [= <-]. right. exists r. split; [done|]. by left.
  - intros [= ->]. by left.
Qed.

Lemma getIssue_throws_for_issue_only_witness :
  issue issue_garbled "OPS-1" = Throw (Error "Unexpected token <")
  \/ exists r, issue issue_garbled "OPS-1" = Ok r
       /\ ((ok r = false
            /\ Error "Unexpected token <"
               = Error ("Issue not found: " +:+ "OPS-1"))
           \/ (ok r = true /\ json r = Throw (Error "Unexpected token <"))).
Proof.
  apply (getIssue_throws_for_issue_only (cm := ascii_only) issue_garbled "OPS-1"
           (Error "Unexpected token <")).
  reflexivity.
Defined.

Lemma getSprint_daysRemaining_witness :
  exists b sprint r doc rest,
    found_board issues_forbidden "OPS" b
    /\ active_sprints issues_forbidden (board_id b) = Ok r
    /\ json r = Ok doc
    /\ sprint_values doc = Some (sprint :: rest)
    /\ None = days_remaining (sprint_endDate sprint) 0.
Proof.
  apply (getSprint_daysRemaining issues_forbidden "OPS" 0
           "Sprint 31" None None []).
  reflexivity.
Defined.

Lemma getSprint_reads_issues_unchecked_witness :
  getSprint issues_forbidden "OPS" 0
  = Ok (Active "Sprint 31" None None []).
Proof.
  apply (getSprint_reads_issues_unchecked issues_forbidden "OPS" 0
           (mkBoard 7)
           (mkResponse true 200 "{}"
              (Ok (mkSprintsDoc
                     (Some [mkSprintDoc 31 "Sprint 31" None None]))))
           (mkSprintsDoc (Some [mkSprintDoc 31 "Sprint 31" None None]))
           (mkSprintDoc 31 "Sprint 31" None None) []
           (mkResponse false 403 "{}" (Ok (mkSprintIssuesDoc None)))
           (mkSprintIssuesDoc None)); try reflexivity.
  do 3 eexists. repeat split; reflexivity.
Defined.

End Lookups.

Section Search.
Import GitHub Spec.

Local Arguments String.append !_ _ / : simpl nomatch.

Lemma replace_unfold pattern replacement s :
  Js.replace pattern replacement s
  = match strip_prefix pattern s with
    | Some rest => replacement +:+ rest
    | None =>
        match s with
        | EmptyString => EmptyString
        | String c s' => String c (Js.replace pattern replacement s')
        end
    end.
Proof. by destruct s. Qed.

Lemma replace_prefix pattern replacement s :
  Js.replace pattern replacement (pattern +:+ s) = replacement +:+ s.
Proof. by rewrite replace_unfold, strip_prefix_app. Qed.

Lemma occurs_tail p c s : occurs p s -> occurs p (String c s).
Proof. intros (a & b & ->). by exists (String c a), b. Qed.

Lemma replace_absent pattern replacement s :
  ~ occurs pattern s -> Js.replace pattern replacement s = s.
Proof.
  induction s as [|c s IH]; intros Hno; rewrite replace_unfold.
  - destruct (strip_prefix pattern EmptyString) as [rest|] eqn:Hp; [|done].
    apply strip_prefix_Some in Hp. destruct Hno. by exists EmptyString, rest.
  - destruct (strip_prefix pattern (String c s)) as [rest|] eqn:Hp.
    + apply strip_prefix_Some in Hp. destruct Hno.
      by exists EmptyString, rest.
    + rewrite IH; [done|]. intros Hocc. by apply Hno, occurs_tail.
Qed.

(** The repository of a search hit: a repository URL that starts with
    https://api.github.com/repos/ gives what follows that prefix, and a
    repository URL in which the prefix does not occur is given
    unchanged; the other fields of the hit are those of the item. *)
Theorem search_hit_repo item :
  (forall r,
     item_repository_url item = "https://api.github.com/repos/" +:+ r ->
     project_hit item
     = mkSearchHit (item_number item) (item_title item)
         (item_user_login item) r (item_state item))
  /\ (~ occurs "https://api.github.com/repos/" (item_repository_url item) ->
      project_hit item
      = mkSearchHit (item_number item) (item_title item)
          (item_user_login item) (item_repository_url item)
          (item_state item)).
Proof.
  unfold project_hit. split.
  - intros r ->. by rewrite replace_prefix.
  - intros Hno. by rewrite replace_absent.
Qed.

Lemma search_hit_repo_witness :
  project_hit (mkSearchItem 42 "Fix login" "octocat"
                 "https://api.github.com/repos/acme/widgets" "open")
  = mkSearchHit 42 "Fix login" "octocat" "acme/widgets" "open".
Proof.
  apply (proj1 (search_hit_repo
                  (mkSearchItem 42 "Fix login" "octocat"
                     "https://api.github.com/repos/acme/widgets" "open"))
           "acme/widgets").
  reflexivity.
Defined.

(** With a configured token and a success response whose body parses,
    [searchPRs] asks for the query behind the qualifier is:pr.  When
    every item has a user it returns one hit for each item, in order; a
    body with no items gives no hit; an item whose user is null makes
    it throw the error of reading [login] of null. *)
Theorem searchPRs_hits up query doc :
  token_configured up ->
  fetched (search_issues up ("is:pr " +:+ query)) doc ->
  (forall found, or_empty (items doc) = List.map as_item_doc found ->
     searchPRs up query = Ok (List.map project_hit found))
  /\ (items doc = None -> searchPRs up query = Ok [])
  /\ ((exists d, d ∈ or_empty (items doc) /\ raw_user_login d = None) ->
      searchPRs up query = Throw null_user).
Proof.
  intros Htoken Hfetched. unfold searchPRs.
  rewrite (proj2 (github_ok_iff up _ doc) (conj Htoken Hfetched)). simpl.
  split; [|split].
  - intros found Hfound.
    by rewrite (proj2 (read_items_ok _ found) Hfound).
  - by intros ->.
  - intros Hnull. by rewrite (read_items_null _ Hnull).
Qed.

Lemma searchPRs_hits_witness :
  searchPRs Scenario.search_one "login"
  = Ok [mkSearchHit 42 "Fix login" "octocat" "acme/widgets" "open"].
Proof.
  apply (proj1 (searchPRs_hits Scenario.search_one "login"
                  (mkSearchDoc (Some
                     [mkSearchItemDoc 42 "Fix login" (Some "octocat")
                        "https://api.github.com/repos/acme/widgets"
                        "open"]))
                  eq_refl
                  (ex_intro _ _ (conj eq_refl (conj eq_refl eq_refl))))
           [mkSearchItem 42 "Fix login" "octocat"
              "https://api.github.com/repos/acme/widgets" "open"]).
  reflexivity.
Defined.

End Search.

Example linked_pr_example :
  Jira.collect (cm := Scenario.ascii_only)
    (Jira.mkPanelDoc (Some [Jira.mkDetail (Some
      [Jira.mkPullRequestRef (Some "https://github.com/acme/widgets/pull/42")
         (Some "OPEN")])]))
  = [Jira.mkLinkedPR "acme/widgets" 42 "open"].
Proof. vm_compute. reflexivity. Qed.

Example dedup_two :
  GitHub.partition_reviews (GitHub.reviewsByUser
    [GitHub.mkReview "a" "APPROVED" 1704067200000;
     GitHub.mkReview "a" "CHANGES_REQUESTED" 1704153600000])
  = ([], ["a"]).
Proof. vm_compute. reflexivity. Qed.

(** The keys of an object come out as [Object.entries] gives them:
    the array indices in ascending order, then the other keys in the
    order of their first assignment. *)
Example entries_order :
  GitHub.partition_reviews (GitHub.reviewsByUser
    [GitHub.mkReview "bob" "APPROVED" 1; GitHub.mkReview "alice" "APPROVED" 2;
     GitHub.mkReview "42" "APPROVED" 3; GitHub.mkReview "7" "APPROVED" 4])
  = (["7"; "42"; "bob"; "alice"], []).
Proof. vm_compute. reflexivity. Qed.

Example search_ghost_throws :
  GitHub.searchPRs Scenario.search_ghost "login" = Throw GitHub.null_user.
Proof. vm_compute. reflexivity. Qed.

Example parseInt_rounds :
  Js.parseInt "9007199254740993" = Num 9007199254740992.
Proof. vm_compute. reflexivity. Qed.
